(** * wagtailapi: the read-only listing/detail API layer

    A shallow embedding of [wagtailapi/api.py]: the field registry, the
    object serializer, the query pipeline (field filtering, scope filtering,
    ordering, search, pagination), the three endpoints and the error
    envelope.

    The content store (Django's ORM, with the order and the reverse of a
    query set), the filter backend (django_filters), the search backend and
    the builtin [int] are external to the module; they are gathered in the
    [Store] record and every theorem quantifies over it. *)

From Stdlib Require Import List String Ascii ZArith Bool Lia Arith Sorted.
Import ListNotations.
Open Scope string_scope.
Open Scope list_scope.
Open Scope Z_scope.

Set Warnings "-register-all".

(** ** Exceptions and results *)

(** The two exception classes that [api_view] catches, and [Fault] for any
    other exception, which [api_view] lets through. *)
Inductive exn : Type :=
| Http404 (msg : string)
| BadRequestError (msg : string)
| Fault (msg : string).

Inductive result (A : Type) : Type :=
| Ok (a : A)
| Raise (e : exn).

Arguments Ok {A} a.
Arguments Raise {A} e.

Definition bind {A B : Type} (r : result A) (k : A -> result B) : result B :=
  match r with
  | Ok a => k a
  | Raise e => Raise e
  end.

Notation "x <- r ;; k" := (bind r (fun x => k))
  (at level 61, r at next level, right associativity).

(** ** JSON-like values *)

(** Raw values held by the store.  [SObj s] stands for any object that is
    not a string and not one of the scalar types [force_text] leaves alone;
    [s] is its text. *)
Inductive scalar : Type :=
| SNone
| SInt (z : Z)
| SStr (s : string)
| SObj (text : string).

Inductive value : Type :=
| VScalar (s : scalar)
| VDict (d : list (string * value))
| VList (l : list value).

Definition document := list (string * value).

(** [force_text(value, strings_only=True)] *)
Definition force_text (v : scalar) : scalar :=
  match v with
  | SObj s => SStr s
  | _ => v
  end.

(** ** Ordered dictionaries *)

Definition keys {V : Type} (d : list (string * V)) : list string := map fst d.

Fixpoint od_get {V : Type} (d : list (string * V)) (k : string) : option V :=
  match d with
  | [] => None
  | (k', v) :: d' => if String.eqb k' k then Some v else od_get d' k
  end.

(** [d[k] = v]: an existing key keeps its position, a new key goes last. *)
Fixpoint od_set {V : Type} (d : list (string * V)) (k : string) (v : V)
  : list (string * V) :=
  match d with
  | [] => [(k, v)]
  | (k', v') :: d' =>
      if String.eqb k' k then (k', v) :: d' else (k', v') :: od_set d' k v
  end.

(** One step of [OrderedDict(pairs)]: [d[k] = v] for the pair [(k, v)]. *)
Definition od_step {V : Type} (d : list (string * V)) (kv : string * V)
  : list (string * V) :=
  od_set d (fst kv) (snd kv).

(** [OrderedDict(pairs)] *)
Definition OrderedDict {V : Type} (pairs : list (string * V)) : list (string * V) :=
  fold_left od_step pairs [].

Definition mem (k : string) (l : list string) : bool :=
  existsb (String.eqb k) l.

(** ** Models and objects *)

(** A model class.  [api_fields = None] is a class without the attribute
    ([hasattr(model, 'api_fields')] is false). *)
Record model : Type := Model {
  app_label : string;
  model_name : string;
  is_page_model : bool;
  api_fields : option (list string)
}.

(** An instance: its id, its class, its child relations (related name, the
    related model and the related objects), its model fields and its other
    attributes. *)
Inductive obj : Type :=
| Obj (id : Z) (cls : model) (rels : list rel)
      (db_fields : list (string * scalar)) (attrs : list (string * scalar))
with rel : Type :=
| Rel (related_name : string) (rel_model : model) (children : list obj).

Definition obj_id (o : obj) : Z := match o with Obj i _ _ _ _ => i end.
Definition type_of (o : obj) : model := match o with Obj _ c _ _ _ => c end.
Definition obj_rels (o : obj) : list rel := match o with Obj _ _ r _ _ => r end.
Definition obj_db_fields (o : obj) := match o with Obj _ _ _ f _ => f end.
Definition obj_attrs (o : obj) := match o with Obj _ _ _ _ a => a end.

(** ** get_api_data *)

(** What one field name resolves to, given the dictionary of child relations
    that declare [api_fields] (already serialized), the model fields and the
    attributes.  [None]: the name matches nothing and is skipped. *)
Definition resolve_field (child_docs : list (string * option (list value)))
    (db_fields attrs : list (string * scalar)) (field_name : string)
  : option value :=
  match od_get child_docs field_name with
  | Some (Some docs) => Some (VList docs)
  | _ =>
      match od_get db_fields field_name with
      | Some v => Some (VScalar v)
      | None =>
          match od_get attrs field_name with
          | Some v => Some (VScalar (force_text v))
          | None => None
          end
      end
  end.

(** The loop over [fields]: one pair per name that resolves. *)
Fixpoint emit_fields (resolve : string -> option value) (fields : list string)
  : list (string * value) :=
  match fields with
  | [] => []
  | f :: fs =>
      match resolve f with
      | Some v => (f, v) :: emit_fields resolve fs
      | None => emit_fields resolve fs
      end
  end.

Fixpoint get_api_data (o : obj) (fields : list string) {struct o}
  : list (string * value) :=
  match o with
  | Obj _ cls rels db_fields attrs =>
      let child_relations :=
        (fix build (rs : list rel) : list (string * option (list value)) :=
           match rs with
           | [] => []
           | Rel name m children :: rs' =>
               (name,
                match api_fields m with
                | Some child_fields =>
                    Some (map (fun child =>
                                 VDict (OrderedDict (get_api_data child child_fields)))
                              children)
                | None => None
                end) :: build rs'
           end) rels in
      let child_relations :=
        if is_page_model cls then OrderedDict child_relations else [] in
      emit_fields (resolve_field child_relations db_fields attrs) fields
  end.

(** ** Strings as Python reads them *)

(** [s.startswith(prefix)] *)
Fixpoint startswith (prefix s : string) : bool :=
  match prefix with
  | EmptyString => true
  | String a prefix' =>
      match s with
      | EmptyString => false
      | String b s' => (Ascii.eqb a b && startswith prefix' s')%bool
      end
  end.

(** [s[1:]] *)
Definition tail1 (s : string) : string :=
  match s with
  | EmptyString => EmptyString
  | String _ s' => s'
  end.

(** [s.split(',')] *)
Fixpoint split_comma (s : string) : list string :=
  match s with
  | EmptyString => [EmptyString]
  | String c s' =>
      if Ascii.eqb c ","%char then EmptyString :: split_comma s'
      else match split_comma s' with
           | [] => [String c EmptyString]
           | w :: ws => String c w :: ws
           end
  end.

(** ** Requests *)

Definition QueryDict := list (string * string).

Record HttpRequest : Type := Request {
  GET : QueryDict;
  site_root_page : Z
}.

(** [request.GET[key]] and [request.GET.get(key)]: the last value given for
    [key]; [None] when [key in request.GET] is false. *)
Fixpoint get_param (q : QueryDict) (key : string) : option string :=
  match q with
  | [] => None
  | (k, v) :: q' =>
      match get_param q' key with
      | Some v' => Some v'
      | None => if String.eqb k key then Some v else None
      end
  end.

(** ** Query sets and the external collaborators *)

Record QuerySet : Type := QS {
  qs_model : model;
  qs_objects : list obj
}.

Definition count (qs : QuerySet) : Z := Z.of_nat (List.length (qs_objects qs)).

(** [queryset[start:stop]] for [0 <= start], [0 <= stop]. *)
Definition slice (qs : QuerySet) (start stop : Z) : QuerySet :=
  QS (qs_model qs)
     (firstn (Z.to_nat (stop - start)) (skipn (Z.to_nat start) (qs_objects qs))).

(** What the module calls but does not define: the filter backend, the
    ORM, the search backend and the builtin [int]. *)
Record Store : Type := {
  (** [int(value)] on the text of a parameter; [None] is [ValueError] *)
  int_of : string -> option Z;
  (** [filterset_factory(model)(data, queryset=queryset).qs] *)
  filterset_qs : model -> QueryDict -> list obj -> list obj;
  (** [queryset.order_by(field)] *)
  order_by : model -> string -> list obj -> list obj;
  (** [queryset.reverse()] on a query set ordered by a field: the model,
      the field of the ordering in force, the elements in that order *)
  qs_reverse : model -> string -> list obj -> list obj;
  (** [get_search_backend().search(query, queryset)] *)
  sb_search : string -> model -> list obj -> list obj;
  (** [resolve_model_string(name)]; [None] is [LookupError] *)
  resolve_model_string : string -> option model;
  (** the [Page], image and [Document] classes *)
  Page : model;
  image_model : model;
  Document : model;
  (** [model.objects.public().live().descendant_of(root, inclusive=True)] *)
  public_live_pages : model -> Z -> list obj;
  (** [Page.objects.get(id=...)]; [None] is [Page.DoesNotExist] *)
  page_by_id : string -> option obj;
  (** [queryset.child_of(parent)] *)
  qs_child_of : obj -> list obj -> list obj;
  (** [page.specific], [page.specific_class], [page.get_parent()] *)
  specific : obj -> obj;
  specific_class : obj -> model;
  get_parent : obj -> option obj;
  (** [self.model.objects.all()], [Document.objects.all()] *)
  all_images : list obj;
  all_documents : list obj
}.

(** [get_object_or_404(queryset, pk=pk)] *)
Definition get_object_or_404 (qs : QuerySet) (pk : Z) : result obj :=
  match find (fun o => Z.eqb (obj_id o) pk) (qs_objects qs) with
  | Some o => Ok o
  | None =>
      Raise (Http404 ("No " ++ model_name (qs_model qs)
                      ++ " matches the given query.")%string)
  end.

(** ** Responses *)

Record HttpResponse : Type := Response {
  status_code : Z;
  content : value
}.

Definition HttpResponseOK : Z := 200.
Definition HttpResponseBadRequest : Z := 400.
Definition HttpResponseNotFound : Z := 404.

(** [json_response(data, response_cls)]: the body is kept as the data that
    [json.dumps] is given. *)
Definition json_response (data : value) (response_cls : Z) : HttpResponse :=
  Response response_cls data.

Definition message_body (msg : string) : value :=
  VDict [("message", VScalar (SStr msg))].

(** The wrapper of [api_view]: [Http404] and [BadRequestError] become JSON
    documents, anything else goes through. *)
Definition api_view (view : result HttpResponse) : result HttpResponse :=
  match view with
  | Ok response => Ok response
  | Raise (Http404 e) => Ok (json_response (message_body e) HttpResponseNotFound)
  | Raise (BadRequestError e) =>
      Ok (json_response (message_body e) HttpResponseBadRequest)
  | Raise (Fault e) => Raise (Fault e)
  end.

Fixpoint mapM {A B : Type} (f : A -> result B) (l : list A) : result (list B) :=
  match l with
  | [] => Ok []
  | a :: l' => b <- f a ;; bs <- mapM f l' ;; Ok (b :: bs)
  end.

(** ** Endpoints *)

Inductive endpoint : Type :=
| PagesAPIEndpoint
| ImagesAPIEndpoint
| DocumentsAPIEndpoint.

(** [BaseAPIEndpoint.get_api_fields] *)
Definition base_get_api_fields (m : model) : list string :=
  match api_fields m with
  | Some declared => [] ++ declared
  | None => []
  end.

(** The list each subclass starts from. *)
Definition base_fields (ep : endpoint) : list string :=
  match ep with
  | PagesAPIEndpoint => ["title"]
  | ImagesAPIEndpoint => ["title"; "width"; "height"]
  | DocumentsAPIEndpoint => ["title"]
  end.

(** [get_api_fields] as each subclass overrides it. *)
Definition get_api_fields (ep : endpoint) (m : model) : list string :=
  base_fields ep ++ base_get_api_fields m.

Section Endpoints.

Variable st : Store.

(** [BaseAPIEndpoint.serialize_object_metadata] and the override of
    [PagesAPIEndpoint]. *)
Definition serialize_object_metadata (ep : endpoint) (o : obj) (show_details : bool)
  : result (list (string * value)) :=
  match ep with
  | PagesAPIEndpoint =>
      let data := [] in
      let data :=
        od_set data "type"
          (VScalar (SStr (app_label (specific_class st o) ++ "."
                          ++ model_name (specific_class st o))%string)) in
      if show_details then
        match get_parent st o with
        | Some parent => Ok (od_set data "parent_id" (VScalar (SInt (obj_id parent))))
        | None => Raise (Fault "'NoneType' object has no attribute 'id'")
        end
      else Ok data
  | _ => Ok []
  end.

Definition nonempty {A : Type} (l : list A) : bool :=
  match l with [] => false | _ => true end.

Definition serialize_object (ep : endpoint) (o : obj) (fields : list string)
    (all_fields show_details : bool) : result document :=
  let data := [("id", VScalar (SInt (obj_id o)))] in
  metadata <- serialize_object_metadata ep o show_details ;;
  let data := if nonempty metadata then data ++ [("meta", VDict metadata)] else data in
  let api_fields := get_api_fields ep (type_of o) in
  let fields :=
    if all_fields then api_fields
    else filter (fun field => mem field api_fields) fields in
  let data := data ++ get_api_data o fields in
  Ok (OrderedDict data).

(** *** The query pipeline *)

Definition do_field_filtering (request : HttpRequest) (queryset : QuerySet)
  : QuerySet :=
  QS (qs_model queryset)
     (filterset_qs st (qs_model queryset) (GET request) (qs_objects queryset)).

(** [queryset.reverse()], for a query set that [order_by(ordering)] gave. *)
Definition reverse (ordering : string) (queryset : QuerySet) : QuerySet :=
  QS (qs_model queryset)
     (qs_reverse st (qs_model queryset) ordering (qs_objects queryset)).

Definition do_ordering (ep : endpoint) (request : HttpRequest) (queryset : QuerySet)
  : result QuerySet :=
  match get_param (GET request) "order" with
  | Some order_by0 =>
      let reverse_order := startswith "-" order_by0 in
      let order_by1 := if reverse_order then tail1 order_by0 else order_by0 in
      queryset <-
        (if (String.eqb order_by1 "id"
             || mem order_by1 (get_api_fields ep (qs_model queryset)))%bool
         then Ok (QS (qs_model queryset)
                     (order_by st (qs_model queryset) order_by1 (qs_objects queryset)))
         else Raise (BadRequestError
                       ("cannot order by '" ++ order_by1
                        ++ "' (unknown field)")%string)) ;;
      Ok (if reverse_order then reverse order_by1 queryset else queryset)
  | None => Ok queryset
  end.

Definition do_search (request : HttpRequest) (queryset : QuerySet) : QuerySet :=
  match get_param (GET request) "search" with
  | Some search_query =>
      QS (qs_model queryset)
         (sb_search st search_query (qs_model queryset) (qs_objects queryset))
  | None => queryset
  end.

(** [int(request.GET.get(key, default))] *)
Definition int_param (request : HttpRequest) (key : string) (default : Z)
  : option Z :=
  match get_param (GET request) key with
  | Some s => int_of st s
  | None => Some default
  end.

Definition do_pagination (request : HttpRequest) (queryset : QuerySet)
  : result QuerySet :=
  offset <-
    match int_param request "offset" 0 with
    | Some offset =>
        if 0 <=? offset then Ok offset
        else Raise (BadRequestError "offset must be a positive integer")
    | None => Raise (BadRequestError "offset must be a positive integer")
    end ;;
  limit <-
    match int_param request "limit" 20 with
    | Some limit =>
        if 0 <=? limit then Ok limit
        else Raise (BadRequestError "limit must be a positive integer")
    | None => Raise (BadRequestError "limit must be a positive integer")
    end ;;
  let start := offset in
  let stop := offset + limit in
  Ok (slice queryset start stop).

(** *** PagesAPIEndpoint *)

Definition get_queryset_pages (request : HttpRequest) (m : model) : QuerySet :=
  QS m (public_live_pages st m (site_root_page request)).

Definition get_model (request : HttpRequest) : result model :=
  match get_param (GET request) "type" with
  | None => Ok (Page st)
  | Some model_name =>
      match resolve_model_string st model_name with
      | Some m => Ok m
      | None => Raise (Http404 "Type doesn't exist")
      end
  end.

Definition do_child_of_filter (request : HttpRequest) (queryset : QuerySet)
  : result QuerySet :=
  match get_param (GET request) "child_of" with
  | Some parent_page_id =>
      match page_by_id st parent_page_id with
      | Some parent_page =>
          Ok (QS (qs_model queryset)
                 (qs_child_of st parent_page (qs_objects queryset)))
      | None => Raise (Http404 "Parent page doesn't exist")
      end
  | None => Ok queryset
  end.

(** The body of a listing response. *)
Definition listing_document (total_count : Z) (name : string) (docs : list document)
  : value :=
  VDict (OrderedDict
           [("meta", VDict (OrderedDict [("total_count", VScalar (SInt total_count))]));
            (name, VList (map VDict docs))]).

Definition pages_listing_view (request : HttpRequest) : result HttpResponse :=
  let ep := PagesAPIEndpoint in
  m <- get_model request ;;
  let queryset := get_queryset_pages request m in
  let queryset := do_field_filtering request queryset in
  queryset <- do_child_of_filter request queryset ;;
  queryset <- do_ordering ep request queryset ;;
  let queryset := do_search request queryset in
  let total_count := count queryset in
  queryset <- do_pagination request queryset ;;
  let fields :=
    match get_param (GET request) "fields" with
    | Some fs => split_comma fs
    | None => ["title"]
    end in
  docs <- mapM (fun page => serialize_object ep page fields false false)
               (qs_objects queryset) ;;
  Ok (json_response (listing_document total_count "pages" docs) HttpResponseOK).

Definition pages_detail_view (request : HttpRequest) (pk : Z) : result HttpResponse :=
  found <- get_object_or_404 (get_queryset_pages request (Page st)) pk ;;
  let page := specific st found in
  data <- serialize_object PagesAPIEndpoint page [] true true ;;
  Ok (json_response (VDict data) HttpResponseOK).

(** *** ImagesAPIEndpoint *)

Definition get_queryset_images (request : HttpRequest) : QuerySet :=
  QS (image_model st) (all_images st).

Definition images_listing_view (request : HttpRequest) : result HttpResponse :=
  let ep := ImagesAPIEndpoint in
  let queryset := get_queryset_images request in
  let queryset := do_field_filtering request queryset in
  queryset <- do_ordering ep request queryset ;;
  let queryset := do_search request queryset in
  let total_count := count queryset in
  queryset <- do_pagination request queryset ;;
  let fields :=
    match get_param (GET request) "fields" with
    | Some fs => split_comma fs
    | None => ["title"]
    end in
  docs <- mapM (fun image => serialize_object ep image fields false false)
               (qs_objects queryset) ;;
  Ok (json_response (listing_document total_count "images" docs) HttpResponseOK).

Definition images_detail_view (request : HttpRequest) (pk : Z) : result HttpResponse :=
  image <- get_object_or_404 (get_queryset_images request) pk ;;
  data <- serialize_object ImagesAPIEndpoint image [] true false ;;
  Ok (json_response (VDict data) HttpResponseOK).

(** *** DocumentsAPIEndpoint *)

Definition documents_listing_view (request : HttpRequest) : result HttpResponse :=
  let ep := DocumentsAPIEndpoint in
  let queryset := QS (Document st) (all_documents st) in
  let queryset := do_field_filtering request queryset in
  queryset <- do_ordering ep request queryset ;;
  let queryset := do_search request queryset in
  let total_count := count queryset in
  queryset <- do_pagination request queryset ;;
  docs <- mapM (fun document => serialize_object ep document ["title"] false false)
               (qs_objects queryset) ;;
  Ok (json_response (listing_document total_count "documents" docs) HttpResponseOK).

Definition documents_detail_view (request : HttpRequest) (pk : Z)
  : result HttpResponse :=
  document <- get_object_or_404 (QS (Document st) (all_documents st)) pk ;;
  data <- serialize_object DocumentsAPIEndpoint document [] true false ;;
  Ok (json_response (VDict data) HttpResponseOK).

(** *** Dispatch, as [get_urlpatterns] wires the two views of an endpoint *)

Definition listing_view (ep : endpoint) (request : HttpRequest)
  : result HttpResponse :=
  match ep with
  | PagesAPIEndpoint => pages_listing_view request
  | ImagesAPIEndpoint => images_listing_view request
  | DocumentsAPIEndpoint => documents_listing_view request
  end.

Definition detail_view (ep : endpoint) (request : HttpRequest) (pk : Z)
  : result HttpResponse :=
  match ep with
  | PagesAPIEndpoint => pages_detail_view request pk
  | ImagesAPIEndpoint => images_detail_view request pk
  | DocumentsAPIEndpoint => documents_detail_view request pk
  end.

End Endpoints.

(** ** Notions the statements use *)

(** A field name resolves on an object when [get_api_data] yields a pair
    for it. *)
Definition resolves (o : obj) (field_name : string) : bool :=
  nonempty (get_api_data o [field_name]).

(** The names of a list, each at its first place. *)
Fixpoint dedup (l : list string) : list string :=
  match l with
  | [] => []
  | x :: l' => x :: filter (fun y => negb (String.eqb y x)) (dedup l')
  end.

(** The key under which a listing puts its documents. *)
Definition collection_name (ep : endpoint) : string :=
  match ep with
  | PagesAPIEndpoint => "pages"
  | ImagesAPIEndpoint => "images"
  | DocumentsAPIEndpoint => "documents"
  end.

(** The requested field list a listing serializes with. *)
Definition listing_fields (ep : endpoint) (request : HttpRequest) : list string :=
  match ep with
  | DocumentsAPIEndpoint => ["title"]
  | _ =>
      match get_param (GET request) "fields" with
      | Some fs => split_comma fs
      | None => ["title"]
      end
  end.

(** The collection of a listing after field filtering, scope filtering,
    ordering and search: the stages before pagination, in their order. *)
Definition listing_collection (st : Store) (ep : endpoint) (request : HttpRequest)
  : result QuerySet :=
  match ep with
  | PagesAPIEndpoint =>
      m <- get_model st request ;;
      filtered <- do_child_of_filter st request
                    (do_field_filtering st request (get_queryset_pages st request m)) ;;
      ordered <- do_ordering st ep request filtered ;;
      Ok (do_search st request ordered)
  | ImagesAPIEndpoint =>
      ordered <- do_ordering st ep request
                   (do_field_filtering st request (get_queryset_images st request)) ;;
      Ok (do_search st request ordered)
  | DocumentsAPIEndpoint =>
      ordered <- do_ordering st ep request
                   (do_field_filtering st request
                      (QS (Document st) (all_documents st))) ;;
      Ok (do_search st request ordered)
  end.




(** The store's [reverse()] turns the sequence it is given round. *)
Definition reverse_is_reversal (st : Store) : Prop :=
  forall m f objs, qs_reverse st m f objs = rev objs.

(** The value a pagination parameter stands for: its default when absent,
    the integer it reads as when that is not negative. *)
Definition param_is (st : Store) (request : HttpRequest) (key : string)
    (default n : Z) : Prop :=
  match get_param (GET request) key with
  | None => n = default
  | Some s => int_of st s = Some n /\ 0 <= n
  end.

(** The parameter is present and does not read as a non-negative integer. *)
Definition param_bad (st : Store) (request : HttpRequest) (key : string) : Prop :=
  exists s, get_param (GET request) key = Some s
            /\ (int_of st s = None \/ exists n, int_of st s = Some n /\ n < 0).

(** ** A store that sorts stably *)

Section StableSort.

Variable A : Type.
Variable key : A -> Z.

(** [x] goes before the first element whose key is not smaller, so that it
    stays before the elements of equal key that followed it. *)
Fixpoint insert_by (x : A) (l : list A) : list A :=
  match l with
  | [] => [x]
  | y :: l' => if key x <=? key y then x :: y :: l' else y :: insert_by x l'
  end.

(** Stable sort, ascending by [key]. *)
Definition sort_by (l : list A) : list A := fold_right insert_by [] l.

(** No two different elements of [l] have the same key. *)
Definition no_ties (l : list A) : Prop :=
  forall x y, In x l -> In y l -> key x = key y -> x = y.

End StableSort.

Arguments insert_by {A} key x l.
Arguments sort_by {A} key l.
Arguments no_ties {A} key l.

(** Stable sort, descending by [key]. *)
Definition sort_by_desc {A : Type} (key : A -> Z) (l : list A) : list A :=
  sort_by (fun x => - key x) l.

(** ** A small store, for examples *)

Module Fixture.

Definition is_space (c : ascii) : bool :=
  let n := nat_of_ascii c in
  (Nat.eqb n 32 || (Nat.leb 9 n && Nat.leb n 13))%bool.

Fixpoint lstrip (s : string) : string :=
  match s with
  | EmptyString => EmptyString
  | String c s' => if is_space c then lstrip s' else s
  end.

Fixpoint rstrip (s : string) : string :=
  match s with
  | EmptyString => EmptyString
  | String c s' =>
      match rstrip s' with
      | EmptyString => if is_space c then EmptyString else String c EmptyString
      | r => String c r
      end
  end.

Definition digit_of (c : ascii) : option Z :=
  let n := nat_of_ascii c in
  if (Nat.leb 48 n && Nat.leb n 57)%bool then Some (Z.of_nat n - 48) else None.

Fixpoint digits_value (acc : Z) (s : string) : option Z :=
  match s with
  | EmptyString => Some acc
  | String c s' =>
      match digit_of c with
      | Some d => digits_value (10 * acc + d) s'
      | None => None
      end
  end.

Definition unsigned_value (s : string) : option Z :=
  match s with
  | EmptyString => None
  | _ => digits_value 0 s
  end.

(** The integer reader of this store: surrounding white space, an optional
    sign, decimal digits, all of them ASCII.  Python's [int] reads these so
    and reads more besides (digits and white space of other scripts). *)
Definition ascii_int (s : string) : option Z :=
  match rstrip (lstrip s) with
  | String "+" r => unsigned_value r
  | String "-" r => option_map Z.opp (unsigned_value r)
  | r => unsigned_value r
  end.

Definition DocumentModel : model := Model "wagtaildocs" "Document" false None.
Definition ImageModel : model := Model "wagtailimages" "Image" false None.
Definition PageModel : model := Model "wagtailcore" "Page" true None.
Definition RelatedLink : model :=
  Model "demosite" "BlogPageRelatedLink" false (Some ["link"]).
Definition BlogPage : model :=
  Model "demosite" "BlogPage" true (Some ["title"; "body"; "related_links"; "feed"]).

Definition document (i : Z) (title : string) : obj :=
  Obj i DocumentModel [] [("id", SInt i); ("title", SStr title)] [("url", SStr "/doc/")].

Definition image (i : Z) (title : string) (w h : Z) : obj :=
  Obj i ImageModel []
      [("id", SInt i); ("title", SStr title); ("width", SInt w); ("height", SInt h)] [].

Definition link (i : Z) (url : string) : obj :=
  Obj i RelatedLink [] [("id", SInt i); ("link", SStr url)] [].

Definition page (i : Z) (title : string) : obj :=
  Obj i PageModel [] [("id", SInt i); ("title", SStr title)] [].

Definition blog_page (i : Z) (title body : string) (links : list obj) : obj :=
  Obj i BlogPage [Rel "related_links" RelatedLink links]
      [("id", SInt i); ("title", SStr title); ("body", SStr body)] [].

Definition documents : list obj :=
  [document 1 "Wagtail by Mark Harkin"; document 2 "James Joyce";
   document 3 "David Mitchell"].

Definition images : list obj :=
  [image 4 "A" 640 480; image 5 "B" 800 600; image 6 "C" 640 400].

Definition blog_pages : list obj :=
  [blog_page 3 "Blog" "Hello" [link 1 "http://a/"; link 2 "http://b/"]].

Definition root : obj := page 1 "Root".

Definition pages : list obj := [page 2 "Home"; page 3 "Blog"].

Definition title_of (o : obj) : string :=
  match od_get (obj_db_fields o) "title" with
  | Some (SStr s) => s
  | _ => ""
  end.

Definition titles : list string :=
  map title_of (documents ++ images ++ pages).

(** The rank of a field's value: an integer is its own rank, a string has
    as many as there are smaller titles in the store. *)
Definition field_rank (f : string) (o : obj) : Z :=
  match od_get (obj_db_fields o) f with
  | Some (SInt z) => z
  | Some (SStr s) => Z.of_nat (List.length (filter (fun t => String.ltb t s) titles))
  | _ => -1
  end.

Definition lower (c : ascii) : ascii :=
  let n := nat_of_ascii c in
  if (Nat.leb 65 n && Nat.leb n 90)%bool then ascii_of_nat (n + 32) else c.

Fixpoint lowercase (s : string) : string :=
  match s with
  | EmptyString => EmptyString
  | String c s' => String (lower c) (lowercase s')
  end.

Fixpoint contains (needle s : string) : bool :=
  (startswith needle s
   || match s with
      | EmptyString => false
      | String _ s' => contains needle s'
      end)%bool.

Definition parent_id_of (i : Z) : option Z :=
  if i =? 3 then Some 2 else if i =? 2 then Some 1 else None.

Definition store : Store := {|
  int_of := ascii_int;
  filterset_qs := fun _ q objs =>
    match get_param q "title" with
    | Some t => filter (fun o => String.eqb (title_of o) t) objs
    | None => objs
    end;
  order_by := fun _ f objs => sort_by (field_rank f) objs;
  qs_reverse := fun _ _ objs => rev objs;
  sb_search := fun query _ objs =>
    filter (fun o => contains (lowercase query) (lowercase (title_of o))) objs;
  resolve_model_string := fun name =>
    if String.eqb name "demosite.BlogPage" then Some BlogPage
    else if String.eqb name "wagtailcore.Page" then Some PageModel
    else None;
  Page := PageModel;
  image_model := ImageModel;
  Document := DocumentModel;
  public_live_pages := fun m _ =>
    if String.eqb (model_name m) "BlogPage" then blog_pages else pages;
  page_by_id := fun s =>
    match ascii_int s with
    | Some i => find (fun o => obj_id o =? i) pages
    | None => None
    end;
  qs_child_of := fun parent objs =>
    filter (fun o => match parent_id_of (obj_id o) with
                     | Some p => p =? obj_id parent
                     | None => false
                     end) objs;
  specific := fun o =>
    match find (fun b => obj_id b =? obj_id o) blog_pages with
    | Some b => b
    | None => o
    end;
  specific_class := fun o =>
    match find (fun b => obj_id b =? obj_id o) blog_pages with
    | Some b => type_of b
    | None => type_of o
    end;
  get_parent := fun o =>
    match parent_id_of (obj_id o) with
    | Some p => find (fun o' => obj_id o' =? p) (root :: pages)
    | None => None
    end;
  all_images := images;
  all_documents := documents
|}.

(** The same store over a database that orders for itself: [order_by] is
    ORDER BY the field ASC and [reverse()] makes it ORDER BY the field DESC,
    the rows of equal value coming in the order of their ids both times. *)
Definition sql_store : Store := {|
  int_of := int_of store;
  filterset_qs := filterset_qs store;
  order_by := fun _ f objs => sort_by (field_rank f) (sort_by obj_id objs);
  qs_reverse := fun _ f objs => sort_by_desc (field_rank f) (sort_by obj_id objs);
  sb_search := sb_search store;
  resolve_model_string := resolve_model_string store;
  Page := Page store;
  image_model := image_model store;
  Document := Document store;
  public_live_pages := public_live_pages store;
  page_by_id := page_by_id store;
  qs_child_of := qs_child_of store;
  specific := specific store;
  specific_class := specific_class store;
  get_parent := get_parent store;
  all_images := all_images store;
  all_documents := all_documents store
|}.






End Fixture.

(** ** Reading a listing response, as the tests do *)

(** The ids of a listing response, as [get_document_id_list] reads them. *)
Definition id_list (name : string) (response : result HttpResponse) : list Z :=
  match response with
  | Ok (Response _ (VDict body)) =>
      match od_get body name with
      | Some (VList docs) =>
          flat_map (fun doc =>
                      match doc with
                      | VDict d =>
                          match od_get d "id" with
                          | Some (VScalar (SInt i)) => [i]
                          | _ => []
                          end
                      | _ => []
                      end) docs
      | _ => []
      end
  | _ => []
  end.

Definition get_response (params : QueryDict) : result HttpResponse :=
  api_view (listing_view Fixture.store DocumentsAPIEndpoint (Request params 1)).

(** ** Further notions *)

(** The field an [order] value names: the value without its leading dash. *)
Definition order_field (order : string) : string :=
  if startswith "-" order then tail1 order else order.

(** The message of [do_ordering] for a field it does not know. *)
Definition unknown_order_message (field : string) : string :=
  ("cannot order by '" ++ field ++ "' (unknown field)")%string.

(** The last value a list of pairs gives to a key. *)
Fixpoint last_binding {V : Type} (pairs : list (string * V)) (k : string)
  : option V :=
  match pairs with
  | [] => None
  | (k', v) :: pairs' =>
      match last_binding pairs' k with
      | Some v' => Some v'
      | None => if String.eqb k' k then Some v else None
      end
  end.

(** The child relation a related name stands for: the last one of that
    name, as the dictionary of [get_api_data] keeps it. *)
Fixpoint find_relation (rels : list rel) (name : string) : option rel :=
  match rels with
  | [] => None
  | Rel n m children :: rels' =>
      match find_relation rels' name with
      | Some r => Some r
      | None => if String.eqb n name then Some (Rel n m children) else None
      end
  end.

(** The dictionary of child relations that [get_api_data] builds: for each
    relation its name and, when its model declares [api_fields], the
    documents of its objects. *)
Fixpoint relation_docs (rels : list rel) : list (string * option (list value)) :=
  match rels with
  | [] => []
  | Rel name m children :: rels' =>
      (name,
       match api_fields m with
       | Some child_fields =>
           Some (map (fun child =>
                        VDict (OrderedDict (get_api_data child child_fields)))
                     children)
       | None => None
       end) :: relation_docs rels'
  end.

(** The value a child relation is serialized to: the documents of its
    objects, each with the fields its model declares. *)
Definition relation_value (r : option rel) : option value :=
  match r with
  | Some (Rel _ m children) =>
      match api_fields m with
      | Some child_fields =>
          Some (VList (map (fun child =>
                              VDict (OrderedDict (get_api_data child child_fields)))
                           children))
      | None => None
      end
  | None => None
  end.

(** The fields [serialize_object] goes on to resolve. *)
Definition selected_fields (ep : endpoint) (o : obj) (fields : list string)
    (all_fields : bool) : list string :=
  if all_fields then get_api_fields ep (type_of o)
  else filter (fun field => mem field (get_api_fields ep (type_of o))) fields.

(** The model a listing works on: the one [type] names for pages, the
    endpoint's own for images and documents. *)
Definition listing_model (st : Store) (ep : endpoint) (request : HttpRequest)
  : result model :=
  match ep with
  | PagesAPIEndpoint => get_model st request
  | ImagesAPIEndpoint => Ok (image_model st)
  | DocumentsAPIEndpoint => Ok (Document st)
  end.

(** The parent that [child_of] names, when it names one, exists. *)
Definition parent_found (st : Store) (request : HttpRequest) : Prop :=
  forall p, get_param (GET request) "child_of" = Some p -> page_by_id st p <> None.

(** The collection a detail view looks the object up in. *)
Definition detail_collection (st : Store) (ep : endpoint) (request : HttpRequest)
  : QuerySet :=
  match ep with
  | PagesAPIEndpoint => get_queryset_pages st request (Page st)
  | ImagesAPIEndpoint => get_queryset_images st request
  | DocumentsAPIEndpoint => QS (Document st) (all_documents st)
  end.

(** [','.join(names)] *)
Fixpoint join_comma (names : list string) : string :=
  match names with
  | [] => EmptyString
  | [w] => w
  | w :: ws => (w ++ String ","%char (join_comma ws))%string
  end.

(** The string has no comma. *)
Fixpoint comma_free (s : string) : bool :=
  match s with
  | EmptyString => true
  | String c s' => (negb (Ascii.eqb c ","%char) && comma_free s')%bool
  end.

(** * Properties *)

(** ** Ordered dictionaries *)

Section OrderedDictFacts.

Variable V : Type.
Implicit Types (d pairs : list (string * V)) (k : string) (v : V).

Lemma keys_od_set_in d k v k' :
  In k' (keys (od_set d k v)) <-> In k' (keys d) \/ k' = k.
Proof.
  induction d as [|[k0 v0] d IH]; simpl.
  - intuition auto.
  - destruct (String.eqb_spec k0 k) as [->|Hne]; simpl.
    + intuition auto.
    + rewrite IH. intuition auto.
Qed.

Lemma od_set_pairs d k v k' v' :
  In (k', v') (od_set d k v) -> In (k', v') d \/ (k', v') = (k, v).
Proof.
  induction d as [|[k0 v0] d IH]; simpl.
  - intuition auto.
  - destruct (String.eqb_spec k0 k) as [->|Hne]; simpl.
    + intros [H|H]; auto.
    + intros [H|H]; auto. apply IH in H. intuition auto.
Qed.

Lemma od_set_NoDup d k v : NoDup (keys d) -> NoDup (keys (od_set d k v)).
Proof.
  induction d as [|[k0 v0] d IH]; simpl; intros Hnd.
  - constructor; [intros []|constructor].
  - inversion Hnd as [|? ? Hnotin Hnd']; subst.
    destruct (String.eqb_spec k0 k) as [->|Hne]; simpl.
    + constructor; assumption.
    + constructor; [|auto].
      fold (keys (od_set d k v)). rewrite keys_od_set_in.
      intros [H|H]; [auto|congruence].
Qed.


Lemma fold_od_step_keys pairs : forall d k,
  In k (keys (fold_left od_step pairs d)) <-> In k (keys d) \/ In k (keys pairs).
Proof.
  induction pairs as [|[k0 v0] pairs IH]; simpl; intros d k.
  - intuition auto.
  - rewrite IH. unfold od_step. simpl. rewrite keys_od_set_in.
    intuition auto.
Qed.

Lemma fold_od_step_pairs pairs : forall d k v,
  In (k, v) (fold_left od_step pairs d) -> In (k, v) d \/ In (k, v) pairs.
Proof.
  induction pairs as [|[k0 v0] pairs IH]; simpl; intros d k v H.
  - auto.
  - apply IH in H as [H|H]; auto.
    apply od_set_pairs in H. simpl in H. intuition auto.
Qed.

Lemma fold_od_step_NoDup pairs : forall d,
  NoDup (keys d) -> NoDup (keys (fold_left od_step pairs d)).
Proof.
  induction pairs as [|kv pairs IH]; simpl; intros d H; auto.
  apply IH. apply od_set_NoDup. assumption.
Qed.


(** The keys of [OrderedDict(pairs)] are the keys of [pairs]. *)
Lemma OrderedDict_keys pairs k :
  In k (keys (OrderedDict pairs)) <-> In k (keys pairs).
Proof.
  unfold OrderedDict.
  rewrite fold_od_step_keys. simpl. intuition auto.
Qed.

(** Every binding of [OrderedDict(pairs)] is one of [pairs]. *)
Lemma OrderedDict_pairs pairs k v :
  In (k, v) (OrderedDict pairs) -> In (k, v) pairs.
Proof.
  unfold OrderedDict.
  intros H. apply fold_od_step_pairs in H as [[]|H]. assumption.
Qed.

Lemma OrderedDict_NoDup pairs : NoDup (keys (OrderedDict pairs)).
Proof.
  unfold OrderedDict.
  apply fold_od_step_NoDup. constructor.
Qed.


End OrderedDictFacts.


(** ** The serializer *)

Lemma mem_In k l : mem k l = true <-> In k l.
Proof.
  unfold mem. rewrite existsb_exists. split.
  - intros [x [Hin Heq]]. apply String.eqb_eq in Heq. subst. assumption.
  - intros Hin. exists k. split; [assumption|apply String.eqb_refl].
Qed.

Lemma keys_app {V : Type} (d1 d2 : list (string * V)) :
  keys (d1 ++ d2) = keys d1 ++ keys d2.
Proof. unfold keys. apply map_app. Qed.

Lemma emit_fields_keys resolve fields k :
  In k (keys (emit_fields resolve fields)) <-> In k fields /\ resolve k <> None.
Proof.
  induction fields as [|f fs IH]; simpl.
  - intuition auto.
  - destruct (resolve f) eqn:Hf; simpl; rewrite IH.
    + split.
      * intros [->|[H1 H2]]; [split; [auto|congruence]|auto].
      * intros [[->|H1] H2]; auto.
    + split.
      * intros [H1 H2]; auto.
      * intros [[->|H1] H2]; [congruence|auto].
Qed.

Lemma emit_fields_pairs resolve fields k v :
  In (k, v) (emit_fields resolve fields) -> In k fields /\ resolve k = Some v.
Proof.
  induction fields as [|f fs IH]; simpl.
  - intros [].
  - destruct (resolve f) eqn:Hf; simpl.
    + intros [H|H]; [inversion H; subst; auto|apply IH in H; intuition auto].
    + intros H. apply IH in H. intuition auto.
Qed.

Lemma resolve_field_not_dict child_docs db_fields attrs f v :
  resolve_field child_docs db_fields attrs f = Some v -> forall d, v <> VDict d.
Proof.
  unfold resolve_field. intros H d.
  destruct (od_get child_docs f) as [[docs|]|];
    [inversion H; subst; discriminate| |];
    (destruct (od_get db_fields f);
     [inversion H; subst; discriminate|];
     destruct (od_get attrs f); inversion H; subst; discriminate).
Qed.

(** [get_api_data] is one pass of [emit_fields] with a resolver that depends
    on the object alone and never yields a dictionary. *)
Lemma get_api_data_emit o :
  exists resolve,
    (forall fields, get_api_data o fields = emit_fields resolve fields)
    /\ (forall f v, resolve f = Some v -> forall d, v <> VDict d).
Proof.
  destruct o as [i cls rels db_fields attrs]. simpl.
  eexists. split; [intros fields; reflexivity|].
  intros f v H. eapply resolve_field_not_dict. exact H.
Qed.

Lemma get_api_data_keys o fields k :
  In k (keys (get_api_data o fields)) <-> In k fields /\ resolves o k = true.
Proof.
  destruct (get_api_data_emit o) as [resolve [Heq _]].
  unfold resolves. rewrite !Heq, emit_fields_keys. simpl.
  destruct (resolve k); simpl; intuition congruence.
Qed.


Lemma nonempty_true {A : Type} (l : list A) : nonempty l = true <-> l <> [].
Proof. destruct l; simpl; split; congruence. Qed.

(** With [show_details] off the metadata never fails. *)
Lemma serialize_object_metadata_listing st ep o :
  exists metadata, serialize_object_metadata st ep o false = Ok metadata.
Proof. destruct ep; simpl; eauto. Qed.

Lemma serialize_object_listing_total st ep o fields all_fields :
  exists doc, serialize_object st ep o fields all_fields false = Ok doc.
Proof.
  unfold serialize_object.
  destruct (serialize_object_metadata_listing st ep o) as [metadata ->].
  simpl. eauto.
Qed.

Lemma mapM_total {A B : Type} (f : A -> result B) (l : list A) :
  (forall a, exists b, f a = Ok b) -> exists bs, mapM f l = Ok bs.
Proof.
  intros Hf. induction l as [|a l [bs IH]]; simpl; eauto.
  destruct (Hf a) as [b ->]. rewrite IH. simpl. eauto.
Qed.

Lemma mapM_Forall2 {A B : Type} (f : A -> result B) (l : list A) (bs : list B) :
  mapM f l = Ok bs -> Forall2 (fun a b => f a = Ok b) l bs.
Proof.
  revert bs. induction l as [|a l IH]; simpl; intros bs H.
  - inversion H. constructor.
  - destruct (f a) as [b|] eqn:Hb; simpl in H; [|discriminate].
    destruct (mapM f l) as [bs'|]; simpl in H; [|discriminate].
    inversion H; subst. constructor; auto.
Qed.

(** The fields [serialize_object] goes on to resolve. *)
Lemma serialize_object_unfold st ep o fields all_fields show_details metadata :
  serialize_object_metadata st ep o show_details = Ok metadata ->
  serialize_object st ep o fields all_fields show_details =
    Ok (OrderedDict
          ((("id", VScalar (SInt (obj_id o)))
              :: (if nonempty metadata then [("meta", VDict metadata)] else []))
           ++ get_api_data o
                (if all_fields then get_api_fields ep (type_of o)
                 else filter (fun field => mem field (get_api_fields ep (type_of o)))
                             fields))).
Proof.
  intros Hm. unfold serialize_object. rewrite Hm. simpl.
  destruct (nonempty metadata); reflexivity.
Qed.

Lemma serialize_object_keys st ep o fields all_fields show_details metadata doc k :
  serialize_object_metadata st ep o show_details = Ok metadata ->
  serialize_object st ep o fields all_fields show_details = Ok doc ->
  In k (keys doc) <->
    k = "id" \/ (k = "meta" /\ metadata <> [])
    \/ (In k (if all_fields then get_api_fields ep (type_of o)
              else filter (fun field => mem field (get_api_fields ep (type_of o)))
                          fields)
        /\ resolves o k = true).
Proof.
  intros Hm Hs. rewrite (serialize_object_unfold _ _ _ fields all_fields _ _ Hm) in Hs.
  inversion Hs; subst doc; clear Hs.
  rewrite OrderedDict_keys.
  match goal with
  | |- context [get_api_data o ?fs] =>
      pose proof (get_api_data_keys o fs k) as Hk; set (selected := fs) in *
  end.
  unfold keys in *. simpl. rewrite map_app, in_app_iff, Hk.
  destruct metadata as [|kv metadata]; simpl.
  - split.
    + intros [H|[[]|H]]; auto.
    + intros [H|[[_ H]|H]]; auto; congruence.
  - split.
    + intros [H|[[H|[]]|H]]; auto.
      right. left. split; [auto|discriminate].
    + intros [H|[[H _]|H]]; auto.
Qed.



(** ** The order of the keys *)

Lemma filter_filter_andb {A : Type} (p q : A -> bool) (l : list A) :
  filter p (filter q l) = filter (fun x => (q x && p x)%bool) l.
Proof.
  induction l as [|a l IH]; simpl; [reflexivity|].
  destruct (q a); simpl; [destruct (p a)|]; rewrite IH; reflexivity.
Qed.

Lemma mem_app k l1 l2 : mem k (l1 ++ l2) = (mem k l1 || mem k l2)%bool.
Proof. unfold mem. apply existsb_app. Qed.

Lemma keys_od_set {V : Type} (d : list (string * V)) k v :
  keys (od_set d k v) = if mem k (keys d) then keys d else keys d ++ [k].
Proof.
  induction d as [|[k0 v0] d IH]; [reflexivity|].
  unfold keys, mem in *. cbn [od_set map fst existsb].
  rewrite (String.eqb_sym k k0).
  destruct (String.eqb k0 k); cbn [orb map fst]; [reflexivity|].
  rewrite IH. destruct (existsb (String.eqb k) (map fst d)); reflexivity.
Qed.

Lemma fold_od_step_key_list {V : Type} (pairs : list (string * V)) :
  forall d,
    keys (fold_left od_step pairs d)
      = keys d ++ filter (fun k => negb (mem k (keys d))) (dedup (keys pairs)).
Proof.
  induction pairs as [|[k v] pairs IH]; intros d.
  - simpl. rewrite app_nil_r. reflexivity.
  - cbn [fold_left]. rewrite IH. unfold od_step at 1 2. cbn [fst snd].
    rewrite keys_od_set. cbn [keys map fst dedup filter]. fold (keys pairs).
    destruct (mem k (keys d)) eqn:Hk; cbn [negb].
    + f_equal. rewrite filter_filter_andb. apply filter_ext. intros y.
      destruct (String.eqb_spec y k) as [->|Hne]; cbn [negb andb].
      * rewrite Hk. reflexivity.
      * reflexivity.
    + rewrite <- app_assoc. cbn [app]. do 2 f_equal.
      rewrite filter_filter_andb. apply filter_ext. intros y.
      rewrite mem_app. cbn [mem existsb]. rewrite orb_false_r, negb_orb.
      apply andb_comm.
Qed.

(** [OrderedDict(pairs)] has the keys of [pairs], each at its first place. *)
Lemma OrderedDict_key_list {V : Type} (pairs : list (string * V)) :
  keys (OrderedDict pairs) = dedup (keys pairs).
Proof.
  unfold OrderedDict. rewrite fold_od_step_key_list. simpl.
  apply filter_true.
Qed.

Lemma emit_fields_key_list resolve fields :
  keys (emit_fields resolve fields)
    = filter (fun f => match resolve f with Some _ => true | None => false end)
             fields.
Proof.
  induction fields as [|f fs IH]; simpl; [reflexivity|].
  destruct (resolve f); simpl; rewrite IH; reflexivity.
Qed.

Lemma get_api_data_key_list o fields :
  keys (get_api_data o fields) = filter (resolves o) fields.
Proof.
  destruct (get_api_data_emit o) as [resolve [Heq _]].
  rewrite Heq, emit_fields_key_list. apply filter_ext. intros f.
  unfold resolves. rewrite Heq. simpl. destruct (resolve f); reflexivity.
Qed.

(** ** The field registry *)

Lemma base_get_api_fields_declared m :
  base_get_api_fields m
    = match api_fields m with Some declared => declared | None => [] end.
Proof. unfold base_get_api_fields. destruct (api_fields m); reflexivity. Qed.

Lemma NoDup_app_iff {A : Type} (l1 l2 : list A) :
  NoDup (l1 ++ l2) <-> NoDup l1 /\ NoDup l2 /\ (forall x, In x l1 -> ~ In x l2).
Proof.
  induction l1 as [|a l1 IH]; simpl.
  - split; [intros H; repeat split; [constructor|assumption|intros x []]|tauto].
  - split.
    + intros H. inversion H as [|? ? Hnin Hnd]; subst.
      apply IH in Hnd as [H1 [H2 H3]]. rewrite in_app_iff in Hnin.
      repeat split; auto.
      * constructor; auto.
      * intros x [->|Hx]; auto.
    + intros [H1 [H2 H3]]. inversion H1 as [|? ? Hnin Hnd]; subst.
      constructor.
      * rewrite in_app_iff. intros [H|H]; [auto|]. exact (H3 a (or_introl eq_refl) H).
      * apply IH. repeat split; auto.
Qed.

(** C6, as the code has it.  The registry of an endpoint for a kind is the
    endpoint's base fields followed by the kind's declared [api_fields], in
    their order, and nothing is dropped: the registry is free of duplicates
    exactly when the declared fields are and none of them is a base field. *)
Theorem get_api_fields_appends ep m :
  let declared := match api_fields m with Some fs => fs | None => [] end in
  get_api_fields ep m = base_fields ep ++ declared
  /\ (NoDup (get_api_fields ep m) <->
      NoDup declared /\ (forall f, In f declared -> ~ In f (base_fields ep))).
Proof.
  intros declared. unfold get_api_fields.
  rewrite base_get_api_fields_declared. fold declared. split; [reflexivity|].
  rewrite NoDup_app_iff. split.
  - intros [_ [H2 H3]]. split; [assumption|]. intros f Hf Hb. exact (H3 f Hb Hf).
  - intros [H2 H3]. split; [|split; [assumption|]].
    + destruct ep; simpl; repeat constructor; simpl; intuition discriminate.
    + intros f Hb Hf. exact (H3 f Hf Hb).
Qed.

(** C6, as stated, fails: a page kind that declares [title] gets it twice. *)
Lemma get_api_fields_repeats_title :
  get_api_fields PagesAPIEndpoint Fixture.BlogPage
    = ["title"; "title"; "body"; "related_links"; "feed"]
  /\ ~ NoDup (get_api_fields PagesAPIEndpoint Fixture.BlogPage).
Proof.
  split; [reflexivity|].
  intros H. inversion H as [|? ? Hnin _]; subst. apply Hnin. left. reflexivity.
Qed.

(** ** Detail views with all fields *)

(** C7, as the code has it.  With [all_fields] on, the keys of the document
    are [id], [meta] when the metadata is not empty, and the fields of the
    kind's registry that resolve on the object, in that order and each once;
    a declared field that resolves to nothing is left out, and no undeclared
    field comes in. *)
Theorem all_fields_keys st ep o fields show_details metadata :
  serialize_object_metadata st ep o show_details = Ok metadata ->
  exists doc,
    serialize_object st ep o fields true show_details = Ok doc
    /\ keys doc
       = dedup ("id" :: (if nonempty metadata then ["meta"] else [])
                ++ filter (resolves o) (get_api_fields ep (type_of o)))
    /\ forall k, In k (keys doc) <->
         k = "id" \/ (k = "meta" /\ metadata <> [])
         \/ (In k (get_api_fields ep (type_of o)) /\ resolves o k = true).
Proof.
  intros Hm. pose proof (serialize_object_unfold st ep o fields true _ _ Hm) as Hs.
  eexists. split; [exact Hs|]. split.
  - rewrite OrderedDict_key_list, keys_app, get_api_data_key_list.
    destruct (nonempty metadata); reflexivity.
  - intros k. exact (serialize_object_keys st ep o fields true _ _ _ k Hm Hs).
Qed.

Lemma all_fields_keys_witness :
  let o := Fixture.blog_page 3 "Blog" "Hello" [] in
  let metadata :=
    [("type", VScalar (SStr "demosite.BlogPage")); ("parent_id", VScalar (SInt 2))] in
  exists doc,
    serialize_object Fixture.store PagesAPIEndpoint o [] true true = Ok doc
    /\ keys doc
       = dedup ("id" :: (if nonempty metadata then ["meta"] else [])
                ++ filter (resolves o) (get_api_fields PagesAPIEndpoint (type_of o)))
    /\ forall k, In k (keys doc) <->
         k = "id" \/ (k = "meta" /\ metadata <> [])
         \/ (In k (get_api_fields PagesAPIEndpoint (type_of o)) /\ resolves o k = true).
Proof.
  intros o metadata.
  apply (all_fields_keys Fixture.store PagesAPIEndpoint o [] true metadata).
  reflexivity.
Defined.

(** C7, as stated, fails: the blog page declares [feed], which resolves to
    nothing, and its detail view has every declared key but that one. *)
Lemma detail_view_omits_declared_field :
  exists doc,
    detail_view Fixture.store PagesAPIEndpoint (Request [] 1) 3
      = Ok (json_response (VDict doc) HttpResponseOK)
    /\ keys doc = ["id"; "meta"; "title"; "body"; "related_links"]
    /\ In "feed" (get_api_fields PagesAPIEndpoint Fixture.BlogPage)
    /\ ~ In "feed" (keys doc).
Proof.
  eexists. split; [reflexivity|]. split; [reflexivity|]. split.
  - simpl. intuition.
  - simpl. intuition discriminate.
Qed.

(** ** Listings *)

Lemma bind_Ok {A B : Type} (a : A) (k : A -> result B) : bind (Ok a) k = k a.
Proof. reflexivity. Qed.

(** A listing is its collection, then pagination, then one document per
    object of the page. *)
Lemma listing_view_stages st ep request :
  listing_view st ep request =
    (queryset <- listing_collection st ep request ;;
     page <- do_pagination st request queryset ;;
     docs <- mapM (fun o => serialize_object st ep o (listing_fields ep request)
                              false false)
                  (qs_objects page) ;;
     Ok (json_response (listing_document (count queryset) (collection_name ep) docs)
                       HttpResponseOK)).
Proof.
  destruct ep; simpl.
  - unfold pages_listing_view.
    destruct (get_model st request) as [m|e]; simpl; [|reflexivity].
    destruct (do_child_of_filter st request _) as [filtered|e]; simpl; [|reflexivity].
    destruct (do_ordering st PagesAPIEndpoint request filtered) as [ordered|e];
      reflexivity.
  - unfold images_listing_view.
    destruct (do_ordering st ImagesAPIEndpoint request _) as [ordered|e]; reflexivity.
  - unfold documents_listing_view.
    destruct (do_ordering st DocumentsAPIEndpoint request _) as [ordered|e];
      reflexivity.
Qed.

(** The documents of a page are always produced. *)
Lemma listing_docs_total st ep fields objs :
  exists docs,
    mapM (fun o => serialize_object st ep o fields false false) objs = Ok docs.
Proof.
  apply mapM_total. intros o. apply serialize_object_listing_total.
Qed.

Lemma do_pagination_defaults st request queryset :
  get_param (GET request) "offset" = None ->
  get_param (GET request) "limit" = None ->
  do_pagination st request queryset = Ok (slice queryset 0 20).
Proof.
  intros Ho Hl. unfold do_pagination, int_param. rewrite Ho, Hl. reflexivity.
Qed.

Lemma serialize_object_key_list st ep o fields all_fields show_details metadata doc :
  serialize_object_metadata st ep o show_details = Ok metadata ->
  serialize_object st ep o fields all_fields show_details = Ok doc ->
  keys doc
    = dedup (("id" :: (if nonempty metadata then ["meta"] else []))
             ++ filter (resolves o) (selected_fields ep o fields all_fields)).
Proof.
  intros Hm Hs.
  pose proof (serialize_object_unfold _ _ _ fields all_fields _ _ Hm) as Hu.
  rewrite Hs in Hu. fold (selected_fields ep o fields all_fields) in Hu.
  assert (Hdoc : doc = OrderedDict
                         ((("id", VScalar (SInt (obj_id o)))
                             :: (if nonempty metadata
                                 then [("meta", VDict metadata)] else []))
                          ++ get_api_data o (selected_fields ep o fields all_fields)))
    by congruence.
  rewrite Hdoc, OrderedDict_key_list, keys_app, get_api_data_key_list.
  destruct (nonempty metadata); reflexivity.
Qed.






(** C2, what the code does.  A parameter that names no field is handed to
    the filter backend with the rest of the query string and nothing checks
    its name: whatever the store, the listing of every endpoint answers
    [?not_a_field=abc] with 200, not with 400.  So does the listing of the
    three documents, whose registry is [title] alone. *)
Theorem unknown_filter_field_is_accepted :
  (forall st ep site,
      exists response,
        api_view (listing_view st ep (Request [("not_a_field", "abc")] site))
          = Ok response
        /\ status_code response = HttpResponseOK)
  /\ get_api_fields DocumentsAPIEndpoint (Document Fixture.store) = ["title"]
  /\ api_view (listing_view Fixture.store DocumentsAPIEndpoint
                 (Request [("not_a_field", "abc")] 1))
     = Ok (json_response
             (listing_document 3 "documents"
                [[("id", VScalar (SInt 1));
                  ("title", VScalar (SStr "Wagtail by Mark Harkin"))];
                 [("id", VScalar (SInt 2)); ("title", VScalar (SStr "James Joyce"))];
                 [("id", VScalar (SInt 3));
                  ("title", VScalar (SStr "David Mitchell"))]])
             HttpResponseOK).
Proof.
  split; [|split; reflexivity].
  intros st ep site. rewrite listing_view_stages.
  set (request := Request [("not_a_field", "abc")] site).
  assert (Hc : exists queryset, listing_collection st ep request = Ok queryset).
  { destruct ep; simpl; eauto. }
  destruct Hc as [queryset ->]. rewrite bind_Ok.
  rewrite (do_pagination_defaults st request queryset eq_refl eq_refl), bind_Ok.
  destruct (listing_docs_total st ep (listing_fields ep request)
              (qs_objects (slice queryset 0 20))) as [docs ->].
  simpl. eauto.
Qed.

(** C8, what the code does.  The listing of documents does not read
    [fields]: asked for [?fields=id] it still gives every document its
    [title], where the listing of images gives the [id] alone. *)
Theorem documents_listing_ignores_fields :
  listing_view Fixture.store DocumentsAPIEndpoint (Request [("fields", "id")] 1)
    = Ok (json_response
            (listing_document 3 "documents"
               [[("id", VScalar (SInt 1));
                 ("title", VScalar (SStr "Wagtail by Mark Harkin"))];
                [("id", VScalar (SInt 2)); ("title", VScalar (SStr "James Joyce"))];
                [("id", VScalar (SInt 3)); ("title", VScalar (SStr "David Mitchell"))]])
            HttpResponseOK)
  /\ listing_view Fixture.store ImagesAPIEndpoint (Request [("fields", "id")] 1)
    = Ok (json_response
            (listing_document 3 "images"
               [[("id", VScalar (SInt 4))]; [("id", VScalar (SInt 5))];
                [("id", VScalar (SInt 6))]])
            HttpResponseOK).
Proof. split; reflexivity. Qed.

(** ** Pagination *)

Lemma param_is_int_param st request key default n :
  param_is st request key default n ->
  int_param st request key default = Some n /\ (0 <= default -> 0 <= n).
Proof.
  unfold param_is, int_param. destruct (get_param (GET request) key).
  - intros [H1 H2]. auto.
  - intros ->. auto.
Qed.

Lemma param_bad_int_param st request key default :
  param_bad st request key ->
  int_param st request key default = None
  \/ exists n, int_param st request key default = Some n /\ n < 0.
Proof.
  unfold param_bad, int_param. intros [s [-> H]]. exact H.
Qed.

Lemma do_pagination_ok st request queryset offset limit :
  param_is st request "offset" 0 offset ->
  param_is st request "limit" 20 limit ->
  do_pagination st request queryset = Ok (slice queryset offset (offset + limit)).
Proof.
  intros Ho Hl.
  apply param_is_int_param in Ho as [Ho Ho0], Hl as [Hl Hl0].
  unfold do_pagination. rewrite Ho, Hl.
  destruct (Z.leb_spec 0 offset); [|lia].
  destruct (Z.leb_spec 0 limit); [|lia]. reflexivity.
Qed.

Lemma do_pagination_bad_offset st request queryset :
  param_bad st request "offset" ->
  do_pagination st request queryset
    = Raise (BadRequestError "offset must be a positive integer").
Proof.
  intros Ho. apply (param_bad_int_param _ _ _ 0) in Ho as [Ho|[n [Ho Hn]]];
    unfold do_pagination; rewrite Ho; [reflexivity|].
  destruct (Z.leb_spec 0 n); [lia|reflexivity].
Qed.

Lemma do_pagination_bad_limit st request queryset offset :
  param_is st request "offset" 0 offset ->
  param_bad st request "limit" ->
  do_pagination st request queryset
    = Raise (BadRequestError "limit must be a positive integer").
Proof.
  intros Ho Hl. apply param_is_int_param in Ho as [Ho Ho0].
  unfold do_pagination. rewrite Ho.
  destruct (Z.leb_spec 0 offset); [|lia]. rewrite bind_Ok.
  apply (param_bad_int_param _ _ _ 20) in Hl as [Hl|[n [Hl Hn]]];
    rewrite Hl; [reflexivity|].
  destruct (Z.leb_spec 0 n); [lia|reflexivity].
Qed.

(** C4. Pagination reads [offset] with default 0 and [limit] with default
    20 and accepts every value that [int] reads as an integer not below 0,
    whatever [int] reads; a value of [offset] on which [int] raises
    [ValueError] or gives an integer below 0 raises [BadRequestError] with
    the message "offset must be a positive integer", such a value of [limit]
    raises it with "limit must be a positive integer"; a listing whose
    earlier stages went through answers it with status 400 and the message
    as its body. *)
Theorem pagination_parameters st ep request :
  (forall queryset offset limit,
      param_is st request "offset" 0 offset ->
      param_is st request "limit" 20 limit ->
      do_pagination st request queryset = Ok (slice queryset offset (offset + limit)))
  /\ (forall queryset,
         param_bad st request "offset" ->
         do_pagination st request queryset
           = Raise (BadRequestError "offset must be a positive integer"))
  /\ (forall queryset offset,
         param_is st request "offset" 0 offset ->
         param_bad st request "limit" ->
         do_pagination st request queryset
           = Raise (BadRequestError "limit must be a positive integer"))
  /\ (forall queryset msg,
         listing_collection st ep request = Ok queryset ->
         do_pagination st request queryset = Raise (BadRequestError msg) ->
         api_view (listing_view st ep request)
           = Ok (json_response (message_body msg) HttpResponseBadRequest)).
Proof.
  split; [|split; [|split]].
  - intros. apply do_pagination_ok; assumption.
  - intros. apply do_pagination_bad_offset; assumption.
  - intros. eapply do_pagination_bad_limit; eassumption.
  - intros queryset msg Hc Hp.
    rewrite listing_view_stages, Hc, bind_Ok, Hp. reflexivity.
Qed.

(** [?limit=abc] on the documents; [?offset=0&limit=0] is accepted. *)
Lemma pagination_parameters_witness :
  api_view (listing_view Fixture.store DocumentsAPIEndpoint
              (Request [("limit", "abc")] 1))
    = Ok (json_response (message_body "limit must be a positive integer")
                        HttpResponseBadRequest)
  /\ do_pagination Fixture.store (Request [("offset", "0"); ("limit", "0")] 1)
       (QS Fixture.DocumentModel Fixture.documents)
     = Ok (slice (QS Fixture.DocumentModel Fixture.documents) 0 (0 + 0)).
Proof.
  split.
  - destruct (pagination_parameters Fixture.store DocumentsAPIEndpoint
                (Request [("limit", "abc")] 1)) as [_ [_ [Hlimit Hview]]].
    apply (Hview (QS Fixture.DocumentModel Fixture.documents)); [reflexivity|].
    apply (Hlimit _ 0); [reflexivity|].
    exists "abc". split; [reflexivity|left; reflexivity].
  - destruct (pagination_parameters Fixture.store DocumentsAPIEndpoint
                (Request [("offset", "0"); ("limit", "0")] 1)) as [Hok _].
    apply Hok; (split; [reflexivity|lia]).
Defined.

(** C5. With valid [offset] and [limit], the page of a listing is the
    slice from [offset] up to [offset + limit] of the collection that search
    returned: position [i] of the page holds what position [offset + i] of
    the collection holds, the page has as many objects as are left there, at
    most [limit], and the listing answers with their documents whatever the
    sizes. *)
Theorem pagination_is_slice st ep request queryset offset limit :
  param_is st request "offset" 0 offset ->
  param_is st request "limit" 20 limit ->
  listing_collection st ep request = Ok queryset ->
  let objs := qs_objects queryset in
  let page := firstn (Z.to_nat limit) (skipn (Z.to_nat offset) objs) in
  do_pagination st request queryset = Ok (QS (qs_model queryset) page)
  /\ (forall i, (i < Z.to_nat limit)%nat ->
        nth_error page i = nth_error objs (Z.to_nat offset + i))
  /\ List.length page
     = Nat.min (Z.to_nat limit) (List.length objs - Z.to_nat offset)
  /\ exists docs,
       mapM (fun o => serialize_object st ep o (listing_fields ep request) false false)
            page = Ok docs
       /\ listing_view st ep request
          = Ok (json_response
                  (listing_document (count queryset) (collection_name ep) docs)
                  HttpResponseOK).
Proof.
  intros Ho Hl Hc objs page.
  assert (Hp : do_pagination st request queryset = Ok (QS (qs_model queryset) page)).
  { rewrite (do_pagination_ok st request queryset offset limit Ho Hl).
    unfold slice. subst page objs. do 3 f_equal. lia. }
  split; [exact Hp|]. split; [|split].
  - intros i Hi. subst page. rewrite nth_error_firstn.
    destruct (Nat.ltb_spec i (Z.to_nat limit)); [|lia].
    apply nth_error_skipn.
  - subst page. rewrite length_firstn, length_skipn. reflexivity.
  - destruct (listing_docs_total st ep (listing_fields ep request) page)
      as [docs Hdocs].
    exists docs. split; [exact Hdocs|].
    rewrite listing_view_stages, Hc, bind_Ok, Hp, bind_Ok. simpl qs_objects.
    rewrite Hdocs. reflexivity.
Qed.

(** [?offset=1&limit=5] on three documents: the second and the third. *)
Lemma pagination_is_slice_witness :
  let request := Request [("offset", "1"); ("limit", "5")] 1 in
  let queryset := QS Fixture.DocumentModel Fixture.documents in
  let objs := qs_objects queryset in
  let page := firstn (Z.to_nat 5) (skipn (Z.to_nat 1) objs) in
  do_pagination Fixture.store request queryset = Ok (QS (qs_model queryset) page)
  /\ (forall i, (i < Z.to_nat 5)%nat ->
        nth_error page i = nth_error objs (Z.to_nat 1 + i))
  /\ List.length page = Nat.min (Z.to_nat 5) (List.length objs - Z.to_nat 1)
  /\ exists docs,
       mapM (fun o => serialize_object Fixture.store DocumentsAPIEndpoint o
                        (listing_fields DocumentsAPIEndpoint request) false false)
            page = Ok docs
       /\ listing_view Fixture.store DocumentsAPIEndpoint request
          = Ok (json_response
                  (listing_document (count queryset)
                     (collection_name DocumentsAPIEndpoint) docs)
                  HttpResponseOK).
Proof.
  intros request queryset.
  apply (pagination_is_slice Fixture.store DocumentsAPIEndpoint request queryset 1 5).
  - split; [reflexivity|lia].
  - split; [reflexivity|lia].
  - reflexivity.
Defined.

(** ** The total count *)












(** ** Ordering *)

Section StableSortFacts.

Variable A : Type.
Variable key : A -> Z.

Lemma insert_by_In x a l : In x (insert_by key a l) <-> x = a \/ In x l.
Proof.
  induction l as [|y l IH]; simpl.
  - intuition auto.
  - destruct (key a <=? key y); simpl; [|rewrite IH]; intuition auto.
Qed.

Lemma sort_by_In x l : In x (sort_by key l) <-> In x l.
Proof.
  induction l as [|a l IH]; simpl; [reflexivity|].
  rewrite insert_by_In, IH. intuition auto.
Qed.

Lemma insert_by_NoDup a l : ~ In a l -> NoDup l -> NoDup (insert_by key a l).
Proof.
  induction l as [|y l IH]; simpl; intros Hnin Hnd.
  - constructor; [intros []|constructor].
  - destruct (key a <=? key y).
    + constructor; assumption.
    + inversion Hnd as [|? ? Hy Hl]; subst. constructor.
      * rewrite insert_by_In. intros [->|H]; auto.
      * apply IH; auto.
Qed.

Lemma sort_by_NoDup l : NoDup l -> NoDup (sort_by key l).
Proof.
  induction l as [|a l IH]; simpl; intros Hnd; [constructor|].
  inversion Hnd; subst. apply insert_by_NoDup; auto.
  rewrite sort_by_In. assumption.
Qed.

Lemma insert_by_sorted a l :
  StronglySorted (fun x y => key x <= key y) l ->
  StronglySorted (fun x y => key x <= key y) (insert_by key a l).
Proof.
  induction l as [|y l IH]; simpl; intros Hs.
  - repeat constructor.
  - apply StronglySorted_inv in Hs as [Hs Hy].
    destruct (Z.leb_spec (key a) (key y)).
    + constructor; [constructor; assumption|].
      constructor; [assumption|].
      rewrite Forall_forall in *. intros z Hz. specialize (Hy z Hz).
      simpl in *. lia.
    + constructor; [apply IH; assumption|].
      rewrite Forall_forall in *. intros z Hz.
      apply insert_by_In in Hz as [->|Hz]; [lia|auto].
Qed.

Lemma sort_by_sorted l :
  StronglySorted (fun x y => key x <= key y) (sort_by key l).
Proof.
  induction l as [|a l IH]; simpl; [constructor|].
  apply insert_by_sorted. assumption.
Qed.

(** Stability: the elements of one key keep the order they had. *)
Lemma insert_by_filter c a l :
  filter (fun z => key z =? c) (insert_by key a l)
    = filter (fun z => key z =? c) (a :: l).
Proof.
  induction l as [|y l IH]; [reflexivity|].
  cbn [insert_by]. destruct (Z.leb_spec (key a) (key y)); [reflexivity|].
  cbn [filter] in *. rewrite IH.
  destruct (Z.eqb_spec (key a) c); [|reflexivity].
  destruct (Z.eqb_spec (key y) c); [lia|reflexivity].
Qed.

Lemma sort_by_filter c l :
  filter (fun z => key z =? c) (sort_by key l) = filter (fun z => key z =? c) l.
Proof.
  induction l as [|a l IH]; [reflexivity|].
  cbn [sort_by fold_right]. fold (sort_by key l).
  rewrite insert_by_filter. cbn [filter]. rewrite IH. reflexivity.
Qed.

End StableSortFacts.

Section SortedLists.

Variable A : Type.
Implicit Type R : A -> A -> Prop.

Lemma StronglySorted_snoc R l a :
  StronglySorted R l -> Forall (fun x => R x a) l -> StronglySorted R (l ++ [a]).
Proof.
  induction l as [|y l IH]; simpl; intros Hs Hf.
  - repeat constructor.
  - apply StronglySorted_inv in Hs as [Hs Hy]. inversion Hf; subst.
    constructor; [auto|]. apply Forall_app. auto.
Qed.

Lemma StronglySorted_rev R l :
  StronglySorted R l -> StronglySorted (fun x y => R y x) (rev l).
Proof.
  induction l as [|y l IH]; simpl; intros Hs; [constructor|].
  apply StronglySorted_inv in Hs as [Hs Hy].
  apply StronglySorted_snoc; [auto|].
  rewrite Forall_forall in *. intros x Hx. apply Hy. apply in_rev. assumption.
Qed.

(** Two duplicate-free lists with the same elements, both sorted by an
    order that is antisymmetric on them, are the same list. *)
Lemma sorted_unique R l1 : forall l2,
  NoDup l1 -> NoDup l2 ->
  (forall x, In x l1 <-> In x l2) ->
  StronglySorted R l1 -> StronglySorted R l2 ->
  (forall x y, In x l1 -> In y l1 -> R x y -> R y x -> x = y) ->
  l1 = l2.
Proof.
  induction l1 as [|a l1 IH]; intros l2 Hn1 Hn2 Hin Hs1 Hs2 Hanti.
  - destruct l2 as [|b l2]; [reflexivity|].
    exfalso. apply (Hin b). left. reflexivity.
  - destruct l2 as [|b l2].
    + exfalso. apply (Hin a). left. reflexivity.
    + apply StronglySorted_inv in Hs1 as [Hs1 Ha], Hs2 as [Hs2 Hb].
      rewrite Forall_forall in Ha, Hb.
      inversion Hn1 as [|? ? Hna Hn1']; inversion Hn2 as [|? ? Hnb Hn2']; subst.
      assert (a = b) as <-.
      { destruct (proj1 (Hin a) (or_introl eq_refl)) as [Hab|Hab]; [auto|].
        destruct (proj2 (Hin b) (or_introl eq_refl)) as [Hba|Hba]; [auto|].
        apply Hanti; simpl; auto. }
      f_equal. apply IH; auto.
      * intros x. split; intros Hx.
        -- destruct (proj1 (Hin x) (or_intror Hx)) as [Hax|Hax]; [|assumption].
           subst. contradiction.
        -- destruct (proj2 (Hin x) (or_intror Hx)) as [Hax|Hax]; [|assumption].
           subst. contradiction.
      * intros x y Hx Hy. apply Hanti; simpl; auto.
Qed.

(** A duplicate-free list that reads the same backwards has one element at
    most. *)
Lemma NoDup_rev_eq (l : list A) x y :
  NoDup l -> rev l = l -> In x l -> In y l -> x = y.
Proof.
  intros Hnd Hrev Hx Hy.
  assert (Hone : forall z, In z l -> z = hd z l).
  { destruct l as [|a l]; [intros z []|]. simpl.
    destruct (exists_last (l := a :: l) ltac:(discriminate)) as [l' [b Hl]].
    assert (Hb : b = a).
    { rewrite Hl, rev_app_distr in Hrev. simpl in Hrev.
      destruct l' as [|a' l']; simpl in *.
      - inversion Hl. reflexivity.
      - inversion Hl; subst a'. inversion Hrev. reflexivity. }
    subst b. destruct l' as [|a' l'].
    - inversion Hl; subst. intros z [Hz|[]]. auto.
    - exfalso. simpl in Hl. inversion Hl; subst a' l.
      inversion Hnd as [|? ? Hna _]; subst. apply Hna.
      apply in_or_app. right. left. reflexivity. }
  rewrite (Hone x Hx), (Hone y Hy). destruct l; [destruct Hx|reflexivity].
Qed.

End SortedLists.

Lemma StronglySorted_impl {A : Type} (R1 R2 : A -> A -> Prop) l :
  (forall x y, R1 x y -> R2 x y) -> StronglySorted R1 l -> StronglySorted R2 l.
Proof.
  intros Himpl Hs. induction Hs as [|a l Hs IH Ha]; constructor; [assumption|].
  rewrite Forall_forall in *. auto.
Qed.

(** Reversing a stable ascending sort is the stable descending sort exactly
    when no two elements share a key. *)
Lemma rev_sort_by_desc_iff {A : Type} (key : A -> Z) (l : list A) :
  NoDup l ->
  rev (sort_by key l) = sort_by_desc key l <-> no_ties key l.
Proof.
  intros Hnd. unfold sort_by_desc. split.
  - intros Heq x y Hx Hy Hkey.
    set (p := fun z => key z =? key x).
    assert (Hp : forall z, p z = (- key z =? - key x)).
    { intros z. unfold p.
      destruct (Z.eqb_spec (key z) (key x)), (Z.eqb_spec (- key z) (- key x));
        (reflexivity || lia). }
    assert (Hrev : rev (filter p l) = filter p l).
    { transitivity (filter p (rev (sort_by key l))).
      - rewrite filter_rev. f_equal. symmetry.
        apply (sort_by_filter A key (key x) l).
      - rewrite Heq.
        transitivity (filter (fun z => - key z =? - key x)
                             (sort_by (fun z => - key z) l)).
        + apply filter_ext. exact Hp.
        + rewrite (sort_by_filter A (fun z => - key z) (- key x) l).
          symmetry. apply filter_ext. exact Hp. }
    apply (NoDup_rev_eq A (filter p l)).
    + apply NoDup_filter. assumption.
    + assumption.
    + apply filter_In. split; [assumption|]. unfold p. apply Z.eqb_refl.
    + apply filter_In. split; [assumption|]. unfold p. apply Z.eqb_eq. auto.
  - intros Hties.
    apply (sorted_unique A (fun x y => key y <= key x)).
    + apply NoDup_rev, sort_by_NoDup. assumption.
    + apply sort_by_NoDup. assumption.
    + intros x. rewrite <- in_rev, !sort_by_In. reflexivity.
    + apply (StronglySorted_rev A (fun x y => key x <= key y)).
      apply sort_by_sorted.
    + apply (StronglySorted_impl (fun x y => - key x <= - key y)).
      * intros x y. lia.
      * apply (sort_by_sorted A (fun x => - key x)).
    + intros x y Hx Hy H1 H2.
      apply in_rev in Hx, Hy. apply sort_by_In in Hx, Hy.
      apply Hties; auto. lia.
Qed.

Lemma startswith_dash f : startswith "-" ("-" ++ f)%string = true.
Proof. reflexivity. Qed.

Lemma do_ordering_by st ep request queryset f :
  get_param (GET request) "order" = Some f ->
  startswith "-" f = false ->
  f = "id" \/ In f (get_api_fields ep (qs_model queryset)) ->
  do_ordering st ep request queryset
    = Ok (QS (qs_model queryset)
             (order_by st (qs_model queryset) f (qs_objects queryset))).
Proof.
  intros Hparam Hdash Hf. unfold do_ordering. rewrite Hparam, Hdash.
  replace (String.eqb f "id" || mem f (get_api_fields ep (qs_model queryset)))%bool
    with true; [reflexivity|].
  symmetry. apply orb_true_iff.
  destruct Hf as [->|Hf]; [left; reflexivity|right; apply mem_In; assumption].
Qed.

Lemma do_ordering_by_reversed st ep request queryset f :
  get_param (GET request) "order" = Some ("-" ++ f)%string ->
  f = "id" \/ In f (get_api_fields ep (qs_model queryset)) ->
  do_ordering st ep request queryset
    = Ok (reverse st f
            (QS (qs_model queryset)
                (order_by st (qs_model queryset) f (qs_objects queryset)))).
Proof.
  intros Hparam Hf. unfold do_ordering. rewrite Hparam, startswith_dash.
  cbn [tail1 append].
  replace (String.eqb f "id" || mem f (get_api_fields ep (qs_model queryset)))%bool
    with true; [reflexivity|].
  symmetry. apply orb_true_iff.
  destruct Hf as [->|Hf]; [left; reflexivity|right; apply mem_In; assumption].
Qed.

(** C3, as the code has it.  For a field [f] that ordering accepts, the
    ordering stage of a listing with [order=-f] returns the store's
    [reverse()] of what it returns with [order=f]: the store orders by [f]
    ascending and is then asked to reverse, it is not asked for a descending
    sort.  When the store's [reverse()] turns the sequence round, the result
    is the exact reversal of the ascending one, and, the store's sort being
    stable, it is the stable descending sort exactly when no two objects of
    the collection have the same value of [f].  Search and the cut of the
    page come after. *)
Theorem descending_order_reverses_ascending
    st ep request_asc request_desc f queryset :
  f = "id" \/ In f (get_api_fields ep (qs_model queryset)) ->
  startswith "-" f = false ->
  get_param (GET request_asc) "order" = Some f ->
  get_param (GET request_desc) "order" = Some ("-" ++ f)%string ->
  exists ascending,
    do_ordering st ep request_asc queryset = Ok ascending
    /\ qs_objects ascending
       = order_by st (qs_model queryset) f (qs_objects queryset)
    /\ do_ordering st ep request_desc queryset = Ok (reverse st f ascending)
    /\ (reverse_is_reversal st ->
        qs_objects (reverse st f ascending) = rev (qs_objects ascending)
        /\ forall key,
             order_by st (qs_model queryset) f (qs_objects queryset)
               = sort_by key (qs_objects queryset) ->
             NoDup (qs_objects queryset) ->
             (qs_objects (reverse st f ascending)
                = sort_by_desc key (qs_objects queryset)
              <-> no_ties key (qs_objects queryset))).
Proof.
  intros Hf Hdash Hasc Hdesc.
  exists (QS (qs_model queryset)
             (order_by st (qs_model queryset) f (qs_objects queryset))).
  split; [apply do_ordering_by; assumption|].
  split; [reflexivity|].
  split; [apply do_ordering_by_reversed; assumption|].
  intros Hrev. cbn [reverse qs_objects qs_model]. rewrite Hrev.
  split; [reflexivity|].
  intros key Hsort Hnd. rewrite Hsort.
  apply rev_sort_by_desc_iff. assumption.
Qed.

(** The images by [width], of which two are 640 wide, in a store that sorts
    stably and whose [reverse()] turns the sequence round. *)
Lemma descending_order_reverses_ascending_witness :
  let queryset := QS Fixture.ImageModel Fixture.images in
  let key := Fixture.field_rank "width" in
  exists ascending,
    do_ordering Fixture.store ImagesAPIEndpoint (Request [("order", "width")] 1)
      queryset = Ok ascending
    /\ do_ordering Fixture.store ImagesAPIEndpoint (Request [("order", "-width")] 1)
         queryset = Ok (reverse Fixture.store "width" ascending)
    /\ qs_objects (reverse Fixture.store "width" ascending)
       = rev (qs_objects ascending)
    /\ (qs_objects (reverse Fixture.store "width" ascending)
          = sort_by_desc key (qs_objects queryset)
        <-> no_ties key (qs_objects queryset)).
Proof.
  intros queryset key.
  destruct (descending_order_reverses_ascending Fixture.store ImagesAPIEndpoint
              (Request [("order", "width")] 1) (Request [("order", "-width")] 1)
              "width" queryset)
    as [ascending [Hasc [_ [Hdesc Hrev]]]].
  - right. simpl. auto.
  - reflexivity.
  - reflexivity.
  - reflexivity.
  - destruct Hrev as [Hrev Hties]; [intros m f objs; reflexivity|].
    exists ascending. split; [exact Hasc|]. split; [exact Hdesc|].
    split; [exact Hrev|].
    apply (Hties key); [reflexivity|].
    unfold queryset, Fixture.images, Fixture.image. simpl.
    repeat constructor; simpl; intuition discriminate.
Defined.

(** C3, as stated, fails.  The page is cut after the ordering: of the three
    documents, [order=title&limit=2] shows the ids 3 and 2 and
    [order=-title&limit=2] the ids 1 and 2, not 2 and 3.  And a database
    that orders for itself answers [reverse()] with ORDER BY DESC: the images
    by [width] come as 4, 6, 5 and by [-width] as 5, 4, 6, not as 5, 6, 4. *)
Lemma descending_listing_is_not_reversed_listing :
  (id_list "documents"
     (api_view (listing_view Fixture.store DocumentsAPIEndpoint
                  (Request [("order", "title"); ("limit", "2")] 1))) = [3; 2]
   /\ id_list "documents"
        (api_view (listing_view Fixture.store DocumentsAPIEndpoint
                     (Request [("order", "-title"); ("limit", "2")] 1))) = [1; 2]
   /\ [1; 2] <> rev [3; 2])
  /\ (id_list "images"
        (api_view (listing_view Fixture.sql_store ImagesAPIEndpoint
                     (Request [("order", "width")] 1))) = [4; 6; 5]
      /\ id_list "images"
           (api_view (listing_view Fixture.sql_store ImagesAPIEndpoint
                        (Request [("order", "-width")] 1))) = [5; 4; 6]
      /\ [5; 4; 6] <> rev [4; 6; 5]).
Proof.
  repeat split; try reflexivity; discriminate.
Qed.

(** On those images, in the store that turns the sequence round, reversal
    puts image 6 before image 4 where the stable descending sort keeps 4
    before 6. *)
Example reversed_order_with_ties :
  map obj_id
      (rev (order_by Fixture.store Fixture.ImageModel "width" Fixture.images))
    = [5; 6; 4]
  /\ map obj_id (sort_by_desc (Fixture.field_rank "width") Fixture.images)
     = [5; 4; 6].
Proof. split; reflexivity. Qed.

(** ** The document tests, on the small store *)

Example test_ordering_default : id_list "documents" (get_response []) = [1; 2; 3].
Proof. reflexivity. Qed.

Example test_filtering_exact_filter :
  id_list "documents" (get_response [("title", "James Joyce")]) = [2].
Proof. reflexivity. Qed.

Example test_ordering_by_title :
  id_list "documents" (get_response [("order", "title")]) = [3; 2; 1]
  /\ id_list "documents" (get_response [("order", "-title")]) = [1; 2; 3].
Proof. split; reflexivity. Qed.

Example test_ordering_by_unknown_field :
  get_response [("order", "not_a_field")]
    = Ok (json_response (message_body "cannot order by 'not_a_field' (unknown field)")
                        HttpResponseBadRequest).
Proof. reflexivity. Qed.

Example test_limit_only_two_results_returned :
  id_list "documents" (get_response [("limit", "2")]) = [1; 2].
Proof. reflexivity. Qed.

Example test_offset_moves_after_offset :
  id_list "documents" (get_response [("offset", "2")]) = [3].
Proof. reflexivity. Qed.

Example test_offset_not_integer_gives_error :
  get_response [("offset", "abc")]
    = Ok (json_response (message_body "offset must be a positive integer")
                        HttpResponseBadRequest).
Proof. reflexivity. Qed.

Example test_search_for_james_joyce :
  id_list "documents" (get_response [("search", "james")]) = [2].
Proof. reflexivity. Qed.

(** * Further properties *)

(** ** What a listing can answer *)

Lemma do_ordering_cases st ep request queryset :
  (exists ordered, do_ordering st ep request queryset = Ok ordered
                   /\ qs_model ordered = qs_model queryset)
  \/ (exists order,
         get_param (GET request) "order" = Some order
         /\ order_field order <> "id"
         /\ ~ In (order_field order) (get_api_fields ep (qs_model queryset))
         /\ do_ordering st ep request queryset
            = Raise (BadRequestError (unknown_order_message (order_field order)))).
Proof.
  unfold do_ordering. destruct (get_param (GET request) "order") as [order|].
  - fold (order_field order).
    destruct (String.eqb_spec (order_field order) "id") as [Hid|Hid].
    + left. cbn [orb bind]. eexists. split; [reflexivity|].
      destruct (startswith "-" order); reflexivity.
    + destruct (mem (order_field order) (get_api_fields ep (qs_model queryset)))
        eqn:Hmem.
      * left. cbn [orb bind]. eexists. split; [reflexivity|].
        destruct (startswith "-" order); reflexivity.
      * right. exists order. split; [reflexivity|]. split; [assumption|]. split.
        -- intros Hin. apply mem_In in Hin. congruence.
        -- reflexivity.
  - left. eauto.
Qed.

Lemma do_pagination_cases st request queryset :
  (exists offset limit,
      param_is st request "offset" 0 offset /\ param_is st request "limit" 20 limit
      /\ do_pagination st request queryset = Ok (slice queryset offset (offset + limit)))
  \/ do_pagination st request queryset
     = Raise (BadRequestError "offset must be a positive integer")
  \/ do_pagination st request queryset
     = Raise (BadRequestError "limit must be a positive integer").
Proof.
  assert (Hparam : forall key default,
             (exists n, param_is st request key default n) \/ param_bad st request key).
  { intros key default. unfold param_is, param_bad.
    destruct (get_param (GET request) key) as [s|]; [|left; eauto].
    destruct (int_of st s) as [n|] eqn:Hs; [|right; eauto].
    destruct (Z.le_gt_cases 0 n); [left; eauto|].
    right. exists s. split; [reflexivity|]. right. exists n. split; [exact Hs|lia]. }
  destruct (Hparam "offset" 0) as [[offset Ho]|Ho].
  - destruct (Hparam "limit" 20) as [[limit Hl]|Hl].
    + left. exists offset, limit. repeat split; try assumption.
      apply do_pagination_ok; assumption.
    + right. right. eapply do_pagination_bad_limit; eassumption.
  - right. left. apply do_pagination_bad_offset. assumption.
Qed.

Lemma get_model_cases st request :
  (exists m, get_model st request = Ok m)
  \/ (get_model st request = Raise (Http404 "Type doesn't exist")
      /\ exists t, get_param (GET request) "type" = Some t
                   /\ resolve_model_string st t = None).
Proof.
  unfold get_model. destruct (get_param (GET request) "type") as [t|]; [|eauto].
  destruct (resolve_model_string st t) eqn:Ht; eauto.
Qed.

Lemma do_child_of_filter_cases st request queryset :
  (exists filtered, do_child_of_filter st request queryset = Ok filtered
                    /\ qs_model filtered = qs_model queryset)
  \/ (do_child_of_filter st request queryset
        = Raise (Http404 "Parent page doesn't exist")
      /\ exists p, get_param (GET request) "child_of" = Some p
                   /\ page_by_id st p = None).
Proof.
  unfold do_child_of_filter.
  destruct (get_param (GET request) "child_of") as [p|]; [|eauto].
  destruct (page_by_id st p) eqn:Hp; eauto.
Qed.

(** The ways the stages before pagination end. *)
Lemma listing_collection_cases st ep request :
  (exists queryset, listing_collection st ep request = Ok queryset)
  \/ (exists order,
         get_param (GET request) "order" = Some order
         /\ listing_collection st ep request
            = Raise (BadRequestError (unknown_order_message (order_field order))))
  \/ (ep = PagesAPIEndpoint
      /\ ((listing_collection st ep request = Raise (Http404 "Type doesn't exist")
           /\ exists t, get_param (GET request) "type" = Some t
                        /\ resolve_model_string st t = None)
          \/ (listing_collection st ep request
                = Raise (Http404 "Parent page doesn't exist")
              /\ exists p, get_param (GET request) "child_of" = Some p
                           /\ page_by_id st p = None))).
Proof.
  destruct ep; cbn [listing_collection].
  - destruct (get_model_cases st request) as [[m ->]|[-> Ht]];
      [|right; right; split; [reflexivity|left; split; [reflexivity|exact Ht]]].
    rewrite bind_Ok.
    destruct (do_child_of_filter_cases st request
                (do_field_filtering st request (get_queryset_pages st request m)))
      as [[filtered [-> _]]|[-> Hp]];
      [|right; right; split; [reflexivity|right; split; [reflexivity|exact Hp]]].
    rewrite bind_Ok.
    destruct (do_ordering_cases st PagesAPIEndpoint request filtered)
      as [[ordered [-> _]]|[order [Ho [_ [_ ->]]]]].
    + left. rewrite bind_Ok. eauto.
    + right. left. exists order. split; [assumption|reflexivity].
  - destruct (do_ordering_cases st ImagesAPIEndpoint request
                (do_field_filtering st request (get_queryset_images st request)))
      as [[ordered [-> _]]|[order [Ho [_ [_ ->]]]]].
    + left. rewrite bind_Ok. eauto.
    + right. left. exists order. split; [assumption|reflexivity].
  - destruct (do_ordering_cases st DocumentsAPIEndpoint request
                (do_field_filtering st request (QS (Document st) (all_documents st))))
      as [[ordered [-> _]]|[order [Ho [_ [_ ->]]]]].
    + left. rewrite bind_Ok. eauto.
    + right. left. exists order. split; [assumption|reflexivity].
Qed.

(** The answers of a listing, by the stages that end it. *)
Lemma listing_answer_cases st ep request :
  exists response,
    api_view (listing_view st ep request) = Ok response
    /\ ((status_code response = HttpResponseOK
         /\ exists total_count docs,
              content response
              = listing_document total_count (collection_name ep) docs)
        \/ (status_code response = HttpResponseBadRequest
            /\ exists msg,
                 content response = message_body msg
                 /\ (msg = "offset must be a positive integer"
                     \/ msg = "limit must be a positive integer"
                     \/ exists order,
                          get_param (GET request) "order" = Some order
                          /\ msg = unknown_order_message (order_field order)))
        \/ (status_code response = HttpResponseNotFound
            /\ ep = PagesAPIEndpoint
            /\ ((content response = message_body "Type doesn't exist"
                 /\ exists t, get_param (GET request) "type" = Some t
                              /\ resolve_model_string st t = None)
                \/ (content response = message_body "Parent page doesn't exist"
                    /\ exists p, get_param (GET request) "child_of" = Some p
                                 /\ page_by_id st p = None)))).
Proof.
  rewrite listing_view_stages.
  destruct (listing_collection_cases st ep request)
    as [[queryset ->]|[[order [Ho ->]]|[Hep [[-> Ht]|[-> Hp]]]]].
  - rewrite bind_Ok.
    destruct (do_pagination_cases st request queryset)
      as [[offset [limit [_ [_ ->]]]]|[->| ->]].
    + rewrite bind_Ok.
      destruct (listing_docs_total st ep (listing_fields ep request)
                  (qs_objects (slice queryset offset (offset + limit))))
        as [docs ->].
      eexists. split; [reflexivity|]. left. split; [reflexivity|].
      do 2 eexists. reflexivity.
    + eexists. split; [reflexivity|]. right. left. split; [reflexivity|].
      eexists. split; [reflexivity|]. auto.
    + eexists. split; [reflexivity|]. right. left. split; [reflexivity|].
      eexists. split; [reflexivity|]. auto.
  - eexists. split; [reflexivity|]. right. left. split; [reflexivity|].
    eexists. split; [reflexivity|]. right. right. eauto.
  - eexists. split; [reflexivity|]. right. right. split; [reflexivity|].
    split; [assumption|]. left. split; [reflexivity|assumption].
  - eexists. split; [reflexivity|]. right. right. split; [reflexivity|].
    split; [assumption|]. right. split; [reflexivity|assumption].
Qed.

(** X1. The answers a listing gives through [api_view] are of three kinds
    and no other: status 200 with the listing document; status 400 with the
    message of pagination for [offset] or for [limit], or with the message
    of ordering for the field that [order] names; and, for pages only,
    status 404 with the message of an unknown type or of a missing parent.
    The listings of images and of documents never answer 404. *)
Theorem listing_outcomes st ep request response :
  api_view (listing_view st ep request) = Ok response ->
  (status_code response = HttpResponseOK
   /\ exists total_count docs,
        content response = listing_document total_count (collection_name ep) docs)
  \/ (status_code response = HttpResponseBadRequest
      /\ exists msg,
           content response = message_body msg
           /\ (msg = "offset must be a positive integer"
               \/ msg = "limit must be a positive integer"
               \/ exists order,
                    get_param (GET request) "order" = Some order
                    /\ msg = unknown_order_message (order_field order)))
  \/ (status_code response = HttpResponseNotFound
      /\ ep = PagesAPIEndpoint
      /\ ((content response = message_body "Type doesn't exist"
           /\ exists t, get_param (GET request) "type" = Some t
                        /\ resolve_model_string st t = None)
          \/ (content response = message_body "Parent page doesn't exist"
              /\ exists p, get_param (GET request) "child_of" = Some p
                           /\ page_by_id st p = None))).
Proof.
  intros Hview.
  destruct (listing_answer_cases st ep request) as [response' [Hview' Hcases]].
  rewrite Hview in Hview'. inversion Hview'; subst response'. exact Hcases.
Qed.

(** A bad [limit] on the images. *)
Lemma listing_outcomes_witness :
  let response :=
    json_response (message_body "limit must be a positive integer")
                  HttpResponseBadRequest in
  (status_code response = HttpResponseOK
   /\ exists total_count docs,
        content response
        = listing_document total_count (collection_name ImagesAPIEndpoint) docs)
  \/ (status_code response = HttpResponseBadRequest
      /\ exists msg,
           content response = message_body msg
           /\ (msg = "offset must be a positive integer"
               \/ msg = "limit must be a positive integer"
               \/ exists order,
                    get_param [("limit", "-3")] "order" = Some order
                    /\ msg = unknown_order_message (order_field order)))
  \/ (status_code response = HttpResponseNotFound
      /\ ImagesAPIEndpoint = PagesAPIEndpoint
      /\ ((content response = message_body "Type doesn't exist"
           /\ exists t, get_param [("limit", "-3")] "type" = Some t
                        /\ resolve_model_string Fixture.store t = None)
          \/ (content response = message_body "Parent page doesn't exist"
              /\ exists p, get_param [("limit", "-3")] "child_of" = Some p
                           /\ page_by_id Fixture.store p = None))).
Proof.
  intros response.
  apply (listing_outcomes Fixture.store ImagesAPIEndpoint
           (Request [("limit", "-3")] 1) response).
  reflexivity.
Defined.

(** X2. A [type] that names no model makes the listing of pages answer 404
    "Type doesn't exist", whatever the other parameters are. *)
Theorem unknown_type_is_not_found st request t :
  get_param (GET request) "type" = Some t ->
  resolve_model_string st t = None ->
  api_view (listing_view st PagesAPIEndpoint request)
    = Ok (json_response (message_body "Type doesn't exist") HttpResponseNotFound).
Proof.
  intros Ht Hnone. rewrite listing_view_stages. cbn [listing_collection].
  unfold get_model. rewrite Ht, Hnone. reflexivity.
Qed.

Lemma unknown_type_is_not_found_witness :
  api_view (listing_view Fixture.store PagesAPIEndpoint
              (Request [("type", "demosite.Nothing"); ("child_of", "99");
                        ("order", "nothing"); ("limit", "abc")] 1))
    = Ok (json_response (message_body "Type doesn't exist") HttpResponseNotFound).
Proof.
  apply (unknown_type_is_not_found Fixture.store _ "demosite.Nothing");
    reflexivity.
Defined.

(** X3. When the type is fine, a [child_of] that names no page makes the
    listing of pages answer 404 "Parent page doesn't exist", before ordering
    and pagination look at their parameters. *)
Theorem missing_parent_is_not_found st request m p :
  get_model st request = Ok m ->
  get_param (GET request) "child_of" = Some p ->
  page_by_id st p = None ->
  api_view (listing_view st PagesAPIEndpoint request)
    = Ok (json_response (message_body "Parent page doesn't exist")
                        HttpResponseNotFound).
Proof.
  intros Hm Hp Hnone. rewrite listing_view_stages. cbn [listing_collection].
  rewrite Hm, bind_Ok. unfold do_child_of_filter. rewrite Hp, Hnone. reflexivity.
Qed.

Lemma missing_parent_is_not_found_witness :
  api_view (listing_view Fixture.store PagesAPIEndpoint
              (Request [("child_of", "99"); ("order", "nothing"); ("offset", "-1")] 1))
    = Ok (json_response (message_body "Parent page doesn't exist")
                        HttpResponseNotFound).
Proof.
  apply (missing_parent_is_not_found Fixture.store _ Fixture.PageModel "99");
    reflexivity.
Defined.

Lemma do_ordering_unknown st ep request queryset order :
  get_param (GET request) "order" = Some order ->
  order_field order <> "id" ->
  ~ In (order_field order) (get_api_fields ep (qs_model queryset)) ->
  do_ordering st ep request queryset
    = Raise (BadRequestError (unknown_order_message (order_field order))).
Proof.
  intros Ho Hid Hin.
  destruct (do_ordering_cases st ep request queryset)
    as [[ordered [Hok _]]|[order' [Ho' [_ [_ Hraise]]]]].
  - exfalso. unfold do_ordering in Hok. rewrite Ho in Hok.
    fold (order_field order) in Hok.
    apply String.eqb_neq in Hid. rewrite Hid in Hok.
    destruct (mem (order_field order) (get_api_fields ep (qs_model queryset)))
      eqn:Hmem.
    + apply mem_In in Hmem. contradiction.
    + discriminate.
  - rewrite Ho in Ho'. inversion Ho'; subst order'. exact Hraise.
Qed.

(** X4. An [order] whose field, once a leading dash is taken off, is neither
    [id] nor in the registry of the listing's model makes the listing answer
    400 with the message that names that field; search and pagination are
    not reached. *)
Theorem unknown_order_field_is_rejected st ep request m order :
  listing_model st ep request = Ok m ->
  parent_found st request ->
  get_param (GET request) "order" = Some order ->
  order_field order <> "id" ->
  ~ In (order_field order) (get_api_fields ep m) ->
  api_view (listing_view st ep request)
    = Ok (json_response (message_body (unknown_order_message (order_field order)))
                        HttpResponseBadRequest).
Proof.
  intros Hm Hparent Ho Hid Hin. rewrite listing_view_stages.
  destruct ep; cbn [listing_collection listing_model] in *.
  - rewrite Hm, bind_Ok.
    destruct (do_child_of_filter_cases st request
                (do_field_filtering st request (get_queryset_pages st request m)))
      as [[filtered [-> Hmodel]]|[_ [p [Hp Hnone]]]].
    + rewrite bind_Ok, (do_ordering_unknown _ _ _ _ order Ho Hid);
        [reflexivity|]. rewrite Hmodel. exact Hin.
    + exfalso. exact (Hparent p Hp Hnone).
  - inversion Hm; subst m.
    rewrite (do_ordering_unknown _ _ _ _ order Ho Hid); [reflexivity|exact Hin].
  - inversion Hm; subst m.
    rewrite (do_ordering_unknown _ _ _ _ order Ho Hid); [reflexivity|exact Hin].
Qed.

Lemma unknown_order_field_is_rejected_witness :
  api_view (listing_view Fixture.store ImagesAPIEndpoint
              (Request [("order", "--width"); ("limit", "abc")] 1))
    = Ok (json_response (message_body "cannot order by '-width' (unknown field)")
                        HttpResponseBadRequest).
Proof.
  apply (unknown_order_field_is_rejected Fixture.store ImagesAPIEndpoint _
           Fixture.ImageModel "--width").
  - reflexivity.
  - intros p Hp. discriminate Hp.
  - reflexivity.
  - discriminate.
  - simpl. intuition discriminate.
Defined.



(** ** The listing document and its pages *)

Lemma do_pagination_inv st request queryset page :
  do_pagination st request queryset = Ok page ->
  exists offset limit,
    param_is st request "offset" 0 offset /\ param_is st request "limit" 20 limit
    /\ 0 <= offset /\ 0 <= limit
    /\ page = slice queryset offset (offset + limit).
Proof.
  intros Hp.
  destruct (do_pagination_cases st request queryset)
    as [[offset [limit [Ho [Hl Hok]]]]|[Hbad|Hbad]];
    [|rewrite Hbad in Hp; discriminate|rewrite Hbad in Hp; discriminate].
  rewrite Hok in Hp. inversion Hp; subst page.
  exists offset, limit. repeat split; try assumption.
  - apply param_is_int_param in Ho as [_ Ho]. apply Ho. lia.
  - apply param_is_int_param in Hl as [_ Hl]. apply Hl. lia.
Qed.

Lemma mapM_length {A B : Type} (f : A -> result B) (l : list A) (bs : list B) :
  mapM f l = Ok bs -> List.length bs = List.length l.
Proof.
  intros H. apply mapM_Forall2 in H.
  induction H; simpl; congruence.
Qed.

Lemma slice_objects queryset offset limit :
  0 <= offset -> 0 <= limit ->
  qs_objects (slice queryset offset (offset + limit))
    = firstn (Z.to_nat limit) (skipn (Z.to_nat offset) (qs_objects queryset)).
Proof.
  intros Ho Hl. unfold slice. cbn [qs_objects]. do 2 f_equal. lia.
Qed.

(** X6. A listing that succeeds answers 200 with a document of two keys,
    [meta] holding [total_count] alone and then the collection under the
    endpoint's name.  It holds as many documents as the collection has from
    [offset] on, [limit] at most, and so never more than [total_count]. *)
Theorem listing_envelope st ep request response :
  listing_view st ep request = Ok response ->
  exists queryset offset limit docs,
    listing_collection st ep request = Ok queryset
    /\ param_is st request "offset" 0 offset
    /\ param_is st request "limit" 20 limit
    /\ status_code response = HttpResponseOK
    /\ content response
       = VDict [("meta", VDict [("total_count", VScalar (SInt (count queryset)))]);
                (collection_name ep, VList (map VDict docs))]
    /\ List.length docs
       = Nat.min (Z.to_nat limit)
                 (List.length (qs_objects queryset) - Z.to_nat offset)
    /\ 0 <= Z.of_nat (List.length docs) <= count queryset.
Proof.
  intros Hview. rewrite listing_view_stages in Hview.
  destruct (listing_collection st ep request) as [queryset|e]; simpl in Hview;
    [|discriminate].
  destruct (do_pagination st request queryset) as [page|e] eqn:Hpage; simpl in Hview;
    [|discriminate].
  destruct (mapM _ (qs_objects page)) as [docs|e] eqn:Hdocs; simpl in Hview;
    [|discriminate].
  inversion Hview; subst response; clear Hview.
  apply do_pagination_inv in Hpage
    as [offset [limit [Ho [Hl [Ho0 [Hl0 ->]]]]]].
  apply mapM_length in Hdocs.
  rewrite slice_objects, length_firstn, length_skipn in Hdocs by assumption.
  exists queryset, offset, limit, docs.
  split; [reflexivity|]. split; [assumption|]. split; [assumption|].
  split; [reflexivity|]. split; [destruct ep; reflexivity|].
  split; [assumption|]. unfold count.
  pose proof (Nat.le_min_r (Z.to_nat limit)
                (List.length (qs_objects queryset) - Z.to_nat offset)) as Hmin.
  rewrite <- Hdocs in Hmin. split; [apply Nat2Z.is_nonneg|].
  apply Nat2Z.inj_le. apply (Nat.le_trans _ _ _ Hmin). apply Nat.le_sub_l.
Qed.

Lemma listing_envelope_witness :
  exists queryset offset limit docs,
    listing_collection Fixture.store ImagesAPIEndpoint
      (Request [("offset", "2"); ("limit", "5")] 1) = Ok queryset
    /\ param_is Fixture.store (Request [("offset", "2"); ("limit", "5")] 1)
         "offset" 0 offset
    /\ param_is Fixture.store (Request [("offset", "2"); ("limit", "5")] 1)
         "limit" 20 limit
    /\ HttpResponseOK = HttpResponseOK
    /\ listing_document 3 "images"
         [[("id", VScalar (SInt 6)); ("title", VScalar (SStr "C"))]]
       = VDict [("meta", VDict [("total_count", VScalar (SInt (count queryset)))]);
                (collection_name ImagesAPIEndpoint, VList (map VDict docs))]
    /\ List.length docs
       = Nat.min (Z.to_nat limit)
                 (List.length (qs_objects queryset) - Z.to_nat offset)
    /\ 0 <= Z.of_nat (List.length docs) <= count queryset.
Proof.
  apply (listing_envelope Fixture.store ImagesAPIEndpoint
           (Request [("offset", "2"); ("limit", "5")] 1)
           (json_response
              (listing_document 3 "images"
                 [[("id", VScalar (SInt 6)); ("title", VScalar (SStr "C"))]])
              HttpResponseOK)).
  reflexivity.
Defined.

Lemma firstn_add_skipn {A : Type} (n m : nat) (l : list A) :
  firstn (n + m) l = firstn n l ++ firstn m (skipn n l).
Proof.
  revert l. induction n as [|n IH]; intros l; [reflexivity|].
  destruct l as [|a l]; simpl.
  - rewrite firstn_nil. reflexivity.
  - rewrite IH. reflexivity.
Qed.

Lemma skipn_add {A : Type} (n m : nat) (l : list A) :
  skipn (n + m) l = skipn m (skipn n l).
Proof.
  revert l. induction n as [|n IH]; intros l; [reflexivity|].
  destruct l as [|a l]; simpl; [rewrite skipn_nil; reflexivity|apply IH].
Qed.

(** X7. Consecutive pages fit together: the page at [offset] of [limit1]
    objects followed by the page at [offset + limit1] of [limit2] objects is
    the page at [offset] of [limit1 + limit2] objects, so that walking a
    collection page by page neither skips nor repeats an object. *)
Theorem consecutive_pages st request1 request2 request12 queryset offset limit1 limit2 :
  param_is st request1 "offset" 0 offset ->
  param_is st request1 "limit" 20 limit1 ->
  param_is st request2 "offset" 0 (offset + limit1) ->
  param_is st request2 "limit" 20 limit2 ->
  param_is st request12 "offset" 0 offset ->
  param_is st request12 "limit" 20 (limit1 + limit2) ->
  exists page1 page2 page12,
    do_pagination st request1 queryset = Ok page1
    /\ do_pagination st request2 queryset = Ok page2
    /\ do_pagination st request12 queryset = Ok page12
    /\ qs_objects page12 = qs_objects page1 ++ qs_objects page2.
Proof.
  intros Ho1 Hl1 Ho2 Hl2 Ho12 Hl12.
  assert (H0 : 0 <= offset).
  { apply param_is_int_param in Ho1 as [_ H]. apply H. lia. }
  assert (H1 : 0 <= limit1).
  { apply param_is_int_param in Hl1 as [_ H]. apply H. lia. }
  assert (H2 : 0 <= limit2).
  { apply param_is_int_param in Hl2 as [_ H]. apply H. lia. }
  rewrite (do_pagination_ok st request1 queryset _ _ Ho1 Hl1).
  rewrite (do_pagination_ok st request2 queryset _ _ Ho2 Hl2).
  rewrite (do_pagination_ok st request12 queryset _ _ Ho12 Hl12).
  do 3 eexists. repeat split.
  rewrite !slice_objects by lia.
  rewrite !Z2Nat.inj_add by lia.
  rewrite firstn_add_skipn, skipn_add. reflexivity.
Qed.

(** Two documents, then the next two, against four at once. *)
Lemma consecutive_pages_witness :
  exists page1 page2 page12,
    do_pagination Fixture.store (Request [("limit", "2")] 1)
      (QS Fixture.DocumentModel Fixture.documents) = Ok page1
    /\ do_pagination Fixture.store (Request [("offset", "2"); ("limit", "2")] 1)
         (QS Fixture.DocumentModel Fixture.documents) = Ok page2
    /\ do_pagination Fixture.store (Request [("limit", "4")] 1)
         (QS Fixture.DocumentModel Fixture.documents) = Ok page12
    /\ qs_objects page12 = qs_objects page1 ++ qs_objects page2.
Proof.
  apply (consecutive_pages Fixture.store (Request [("limit", "2")] 1)
           (Request [("offset", "2"); ("limit", "2")] 1)
           (Request [("limit", "4")] 1)
           (QS Fixture.DocumentModel Fixture.documents) 0 2 2);
    try reflexivity; (split; [reflexivity|lia]).
Defined.

(** ** The values of a document *)

Lemma od_get_od_set {V : Type} (d : list (string * V)) k v k' :
  od_get (od_set d k v) k' = if String.eqb k k' then Some v else od_get d k'.
Proof.
  induction d as [|[k0 v0] d IH]; cbn [od_set od_get]; [reflexivity|].
  destruct (String.eqb_spec k0 k) as [->|Hne]; cbn [od_get].
  - destruct (String.eqb k k'); reflexivity.
  - rewrite IH. destruct (String.eqb_spec k0 k') as [->|Hne']; [|reflexivity].
    apply not_eq_sym in Hne. apply String.eqb_neq in Hne. rewrite Hne. reflexivity.
Qed.

Lemma od_get_fold_od_step {V : Type} (pairs : list (string * V)) : forall d k,
  od_get (fold_left od_step pairs d) k
    = match last_binding pairs k with
      | Some v => Some v
      | None => od_get d k
      end.
Proof.
  induction pairs as [|[k0 v0] pairs IH]; intros d k; cbn [fold_left last_binding];
    [reflexivity|].
  rewrite IH. destruct (last_binding pairs k); [reflexivity|].
  unfold od_step. cbn [fst snd]. rewrite od_get_od_set.
  destruct (String.eqb k0 k); reflexivity.
Qed.

(** Looking a key up in [OrderedDict(pairs)] gives the last value that
    [pairs] has for it. *)
Lemma od_get_OrderedDict {V : Type} (pairs : list (string * V)) k :
  od_get (OrderedDict pairs) k = last_binding pairs k.
Proof.
  unfold OrderedDict. rewrite od_get_fold_od_step.
  destruct (last_binding pairs k); reflexivity.
Qed.

Lemma last_binding_app {V : Type} (l1 l2 : list (string * V)) k :
  last_binding (l1 ++ l2) k
    = match last_binding l2 k with
      | Some v => Some v
      | None => last_binding l1 k
      end.
Proof.
  induction l1 as [|[k0 v0] l1 IH]; cbn [app last_binding].
  - destruct (last_binding l2 k); reflexivity.
  - rewrite IH. destruct (last_binding l2 k); reflexivity.
Qed.

Lemma last_binding_emit_fields resolve fields k :
  last_binding (emit_fields resolve fields) k
    = if mem k fields then resolve k else None.
Proof.
  induction fields as [|f fs IH]; [reflexivity|].
  cbn [emit_fields]. unfold mem in *. cbn [existsb].
  rewrite (String.eqb_sym k f).
  destruct (String.eqb_spec f k) as [->|Hne]; cbn [orb].
  - destruct (resolve k) as [v|] eqn:Hk; cbn [last_binding]; rewrite IH.
    + rewrite String.eqb_refl.
      destruct (existsb (String.eqb k) fs); reflexivity.
    + destruct (existsb (String.eqb k) fs); reflexivity.
  - apply String.eqb_neq in Hne.
    destruct (resolve f) as [v|]; cbn [last_binding]; rewrite IH; [rewrite Hne|];
      destruct (existsb (String.eqb k) fs); destruct (resolve k); reflexivity.
Qed.

(** What a key of the document is bound to: the value of the field when it
    is one of the fields resolved, else the object's id for [id], the
    metadata for [meta] when there is some, and nothing for any other key. *)
Lemma serialize_object_lookup st ep o fields all_fields show_details metadata doc k :
  serialize_object_metadata st ep o show_details = Ok metadata ->
  serialize_object st ep o fields all_fields show_details = Ok doc ->
  od_get doc k
    = if (mem k (selected_fields ep o fields all_fields) && resolves o k)%bool
      then od_get (get_api_data o [k]) k
      else if String.eqb k "id" then Some (VScalar (SInt (obj_id o)))
      else if (String.eqb k "meta" && nonempty metadata)%bool
           then Some (VDict metadata)
           else None.
Proof.
  intros Hm Hs.
  pose proof (serialize_object_unfold _ _ _ fields all_fields _ _ Hm) as Hu.
  rewrite Hs in Hu. fold (selected_fields ep o fields all_fields) in Hu.
  assert (Hdoc : doc = OrderedDict
                         ((("id", VScalar (SInt (obj_id o)))
                             :: (if nonempty metadata
                                 then [("meta", VDict metadata)] else []))
                          ++ get_api_data o (selected_fields ep o fields all_fields)))
    by congruence.
  rewrite Hdoc. clear Hdoc Hu Hs.
  rewrite od_get_OrderedDict, last_binding_app.
  destruct (get_api_data_emit o) as [resolve [Heq _]].
  unfold resolves. rewrite !Heq, last_binding_emit_fields.
  cbn [emit_fields od_get].
  destruct (mem k (selected_fields ep o fields all_fields)); cbn [andb].
  - destruct (resolve k) as [v|]; cbn [nonempty od_get].
    + rewrite String.eqb_refl. reflexivity.
    + cbn [last_binding]. rewrite (String.eqb_sym k "id"), (String.eqb_sym k "meta").
      destruct metadata; cbn [nonempty app last_binding];
        destruct (String.eqb "id" k) eqn:Hid;
        try destruct (String.eqb "meta" k) eqn:Hmeta; try reflexivity.
      apply String.eqb_eq in Hid, Hmeta. congruence.
  - cbn [last_binding]. rewrite (String.eqb_sym k "id"), (String.eqb_sym k "meta").
    destruct metadata; cbn [nonempty app last_binding];
      destruct (String.eqb "id" k) eqn:Hid;
      try destruct (String.eqb "meta" k) eqn:Hmeta; try reflexivity.
    apply String.eqb_eq in Hid, Hmeta. congruence.
Qed.

(** X8. A serialized document never has a key twice, not when the request
    repeats a field and not when the registry does. *)
Theorem serialize_object_keys_distinct
    st ep o fields all_fields show_details doc :
  serialize_object st ep o fields all_fields show_details = Ok doc ->
  NoDup (keys doc).
Proof.
  unfold serialize_object. intros Hs.
  destruct (serialize_object_metadata st ep o show_details) as [metadata|e];
    [|discriminate].
  rewrite bind_Ok in Hs. inversion Hs. apply OrderedDict_NoDup.
Qed.

(** The blog page, whose registry has [title] twice, asked for [body] twice. *)
Lemma serialize_object_keys_distinct_witness :
  NoDup ["id"; "meta"; "body"; "title"].
Proof.
  apply (serialize_object_keys_distinct Fixture.store PagesAPIEndpoint
           (Fixture.blog_page 3 "Blog" "Hello" []) ["body"; "title"; "body"]
           false false
           [("id", VScalar (SInt 3));
            ("meta", VDict [("type", VScalar (SStr "demosite.BlogPage"))]);
            ("body", VScalar (SStr "Hello")); ("title", VScalar (SStr "Blog"))]).
  reflexivity.
Defined.

(** X9. In a serialized document every field that is resolved is bound to
    the value [get_api_data] gives it, [id] and [meta] included when the
    registry has fields of these names; otherwise [id] is bound to the
    object's id. *)
Theorem serialize_object_values
    st ep o fields all_fields show_details metadata doc :
  serialize_object_metadata st ep o show_details = Ok metadata ->
  serialize_object st ep o fields all_fields show_details = Ok doc ->
  (forall k, In k (selected_fields ep o fields all_fields) ->
             resolves o k = true ->
             od_get doc k = od_get (get_api_data o [k]) k)
  /\ (~ In "id" (selected_fields ep o fields all_fields) \/ resolves o "id" = false ->
      od_get doc "id" = Some (VScalar (SInt (obj_id o)))).
Proof.
  intros Hm Hs. split.
  - intros k Hin Hres.
    rewrite (serialize_object_lookup _ _ _ _ _ _ _ _ k Hm Hs), Hres.
    apply mem_In in Hin. rewrite Hin. reflexivity.
  - intros Hid. rewrite (serialize_object_lookup _ _ _ _ _ _ _ _ "id" Hm Hs).
    replace (mem "id" (selected_fields ep o fields all_fields) && resolves o "id")%bool
      with false; [reflexivity|].
    symmetry. apply andb_false_iff. destruct Hid as [Hid|Hid]; [left|right; exact Hid].
    destruct (mem "id" (selected_fields ep o fields all_fields)) eqn:Hmem;
      [|reflexivity].
    apply mem_In in Hmem. contradiction.
Qed.

Lemma serialize_object_values_witness :
  let o := Fixture.image 4 "A" 640 480 in
  let doc := [("id", VScalar (SInt 4)); ("width", VScalar (SInt 640))] in
  (forall k, In k (selected_fields ImagesAPIEndpoint o ["width"; "url"] false) ->
             resolves o k = true ->
             od_get doc k = od_get (get_api_data o [k]) k)
  /\ (~ In "id" (selected_fields ImagesAPIEndpoint o ["width"; "url"] false)
      \/ resolves o "id" = false ->
      od_get doc "id" = Some (VScalar (SInt (obj_id o)))).
Proof.
  intros o doc.
  apply (serialize_object_values Fixture.store ImagesAPIEndpoint o
           ["width"; "url"] false false [] doc); reflexivity.
Defined.

Lemma dedup_id_meta rest :
  exists rest', dedup ("id" :: "meta" :: rest) = "id" :: "meta" :: rest'.
Proof. cbn [dedup filter]. eexists. reflexivity. Qed.

(** X10. A document of a page has [meta] as its second key, after [id]: the
    type tag of the page's specific class and, with details, the id of its
    parent.  A document of an image or of a file has no [meta].  (The
    registry is taken not to declare a field called [meta].) *)
Theorem metadata_block st ep o fields all_fields show_details doc :
  serialize_object st ep o fields all_fields show_details = Ok doc ->
  ~ In "meta" (get_api_fields ep (type_of o)) ->
  match ep with
  | PagesAPIEndpoint =>
      (exists rest, keys doc = "id" :: "meta" :: rest)
      /\ od_get doc "meta"
         = Some (VDict
                   (("type",
                     VScalar (SStr (app_label (specific_class st o) ++ "."
                                    ++ model_name (specific_class st o))%string))
                    :: (if show_details
                        then match get_parent st o with
                             | Some parent =>
                                 [("parent_id", VScalar (SInt (obj_id parent)))]
                             | None => []
                             end
                        else [])))
      /\ (show_details = true -> get_parent st o <> None)
  | _ => ~ In "meta" (keys doc)
  end.
Proof.
  intros Hs Hreg.
  assert (Hsel : mem "meta" (selected_fields ep o fields all_fields) = false).
  { destruct (mem "meta" (selected_fields ep o fields all_fields)) eqn:Hmem;
      [|reflexivity].
    exfalso. apply mem_In in Hmem. apply Hreg.
    unfold selected_fields in Hmem. destruct all_fields; [assumption|].
    apply filter_In in Hmem as [_ Hmem]. apply mem_In. assumption. }
  destruct (serialize_object_metadata st ep o show_details) as [metadata|e] eqn:Hm;
    [|unfold serialize_object in Hs; rewrite Hm in Hs; discriminate].
  pose proof (serialize_object_lookup _ _ _ _ _ _ _ _ "meta" Hm Hs) as Hget.
  rewrite Hsel in Hget. cbn [andb] in Hget.
  change (String.eqb "meta" "id") with false in Hget.
  change (String.eqb "meta" "meta") with true in Hget. cbn [andb] in Hget.
  destruct ep.
  - assert (Hmeta : metadata
                    = ("type",
                       VScalar (SStr (app_label (specific_class st o) ++ "."
                                      ++ model_name (specific_class st o))%string))
                      :: (if show_details
                          then match get_parent st o with
                               | Some parent =>
                                   [("parent_id", VScalar (SInt (obj_id parent)))]
                               | None => []
                               end
                          else [])
                    /\ (show_details = true -> get_parent st o <> None)).
    { cbn [serialize_object_metadata od_set] in Hm. destruct show_details.
      - destruct (get_parent st o) as [parent|]; [|discriminate].
        inversion Hm. split; [reflexivity|]. intros _. discriminate.
      - inversion Hm. split; [reflexivity|]. intros H. discriminate H. }
    destruct Hmeta as [Hmeta Hparent]. split; [|split; [|exact Hparent]].
    + rewrite (serialize_object_unfold _ _ _ fields all_fields _ _ Hm) in Hs.
      inversion Hs as [Hdoc]. rewrite OrderedDict_key_list.
      rewrite Hmeta. cbn [nonempty keys map fst app]. apply dedup_id_meta.
    + rewrite Hget, Hmeta. reflexivity.
  - intros Hin.
    apply (serialize_object_keys _ _ _ _ _ _ _ _ "meta" Hm Hs) in Hin.
    destruct Hin as [Hin|[[_ Hne]|[Hin _]]].
    + discriminate.
    + inversion Hm; subst. congruence.
    + fold (selected_fields ImagesAPIEndpoint o fields all_fields) in Hin.
      apply mem_In in Hin. congruence.
  - intros Hin.
    apply (serialize_object_keys _ _ _ _ _ _ _ _ "meta" Hm Hs) in Hin.
    destruct Hin as [Hin|[[_ Hne]|[Hin _]]].
    + discriminate.
    + inversion Hm; subst. congruence.
    + fold (selected_fields DocumentsAPIEndpoint o fields all_fields) in Hin.
      apply mem_In in Hin. congruence.
Qed.

Lemma metadata_block_witness :
  let o := Fixture.blog_page 3 "Blog" "Hello" [] in
  let doc :=
    [("id", VScalar (SInt 3));
     ("meta", VDict [("type", VScalar (SStr "demosite.BlogPage"));
                     ("parent_id", VScalar (SInt 2))]);
     ("title", VScalar (SStr "Blog")); ("body", VScalar (SStr "Hello"));
     ("related_links", VList [])] in
  (exists rest, keys doc = "id" :: "meta" :: rest)
  /\ od_get doc "meta"
     = Some (VDict
               (("type",
                 VScalar (SStr (app_label (specific_class Fixture.store o) ++ "."
                                ++ model_name (specific_class Fixture.store o))%string))
                :: match get_parent Fixture.store o with
                   | Some parent => [("parent_id", VScalar (SInt (obj_id parent)))]
                   | None => []
                   end))
  /\ (true = true -> get_parent Fixture.store o <> None).
Proof.
  intros o doc.
  apply (metadata_block Fixture.store PagesAPIEndpoint o [] true true doc).
  - reflexivity.
  - simpl. intuition discriminate.
Defined.

(** ** Detail views *)

Lemma get_object_or_404_cases queryset pk :
  (exists found,
      get_object_or_404 queryset pk = Ok found
      /\ In found (qs_objects queryset) /\ obj_id found = pk)
  \/ ((exists msg, get_object_or_404 queryset pk = Raise (Http404 msg))
      /\ forall o, In o (qs_objects queryset) -> obj_id o <> pk).
Proof.
  unfold get_object_or_404.
  destruct (find (fun o => obj_id o =? pk) (qs_objects queryset)) as [found|] eqn:Hf.
  - left. apply find_some in Hf as [Hin Heq]. apply Z.eqb_eq in Heq. eauto.
  - right. split; [eauto|]. intros o Hin Heq.
    apply (find_none _ _ Hf) in Hin. simpl in Hin. apply Z.eqb_neq in Hin. contradiction.
Qed.

(** What the three detail views share: look the object up, serialize it
    with all its fields, answer 200. *)
Lemma detail_view_stages st ep request pk :
  detail_view st ep request pk =
    (found <- get_object_or_404 (detail_collection st ep request) pk ;;
     data <- serialize_object st ep
               (match ep with
                | PagesAPIEndpoint => specific st found
                | _ => found
                end)
               [] true
               (match ep with PagesAPIEndpoint => true | _ => false end) ;;
     Ok (json_response (VDict data) HttpResponseOK)).
Proof. destruct ep; reflexivity. Qed.

(** X11. A detail view answers 404 when no object of its collection has the
    id asked for.  Every other answer it gives is 200 with the all-fields
    document of an object of the collection that has this id (for a page,
    of its specific version, with details).  The query string has no part in
    it. *)
Theorem detail_view_outcomes st ep request pk :
  ((forall o, In o (qs_objects (detail_collection st ep request)) -> obj_id o <> pk) ->
   exists msg,
     api_view (detail_view st ep request pk)
       = Ok (json_response (message_body msg) HttpResponseNotFound))
  /\ (forall response,
         api_view (detail_view st ep request pk) = Ok response ->
         status_code response = HttpResponseNotFound
         \/ exists found doc,
              In found (qs_objects (detail_collection st ep request))
              /\ obj_id found = pk
              /\ serialize_object st ep
                   (match ep with
                    | PagesAPIEndpoint => specific st found
                    | _ => found
                    end)
                   [] true
                   (match ep with PagesAPIEndpoint => true | _ => false end)
                 = Ok doc
              /\ response = json_response (VDict doc) HttpResponseOK)
  /\ (forall query,
         detail_view st ep (Request query (site_root_page request)) pk
           = detail_view st ep request pk).
Proof.
  split; [|split].
  - intros Hnone. rewrite detail_view_stages.
    destruct (get_object_or_404_cases (detail_collection st ep request) pk)
      as [[found [_ [Hin Hid]]]|[[msg ->] _]].
    + exfalso. exact (Hnone found Hin Hid).
    + exists msg. reflexivity.
  - intros response Hview. rewrite detail_view_stages in Hview.
    destruct (get_object_or_404_cases (detail_collection st ep request) pk)
      as [[found [Hget [Hin Hid]]]|[[msg Hget] _]]; rewrite Hget in Hview.
    + rewrite bind_Ok in Hview.
      destruct (serialize_object st ep _ [] true _) as [doc|e] eqn:Hdoc.
      * right. exists found, doc. rewrite bind_Ok in Hview.
        inversion Hview. auto.
      * unfold serialize_object in Hdoc.
        destruct (serialize_object_metadata st ep _ _) as [metadata|e'] eqn:Hm;
          [discriminate|].
        destruct ep; simpl in Hm; try discriminate.
        destruct (get_parent st (specific st found)); [discriminate|].
        inversion Hm; subst e'. simpl in Hdoc. inversion Hdoc; subst e.
        discriminate.
    + left. inversion Hview. reflexivity.
  - intros query. destruct ep; reflexivity.
Qed.

(** The blog page by its id, and an id that no document has. *)
Lemma detail_view_outcomes_witness :
  (exists msg,
      api_view (detail_view Fixture.store DocumentsAPIEndpoint (Request [] 1) 7)
        = Ok (json_response (message_body msg) HttpResponseNotFound))
  /\ (exists found doc,
         In found (qs_objects (detail_collection Fixture.store PagesAPIEndpoint
                                 (Request [("title", "Home")] 1)))
         /\ obj_id found = 3
         /\ serialize_object Fixture.store PagesAPIEndpoint
              (specific Fixture.store found) [] true true = Ok doc
         /\ json_response
              (VDict
                 [("id", VScalar (SInt 3));
                  ("meta", VDict [("type", VScalar (SStr "demosite.BlogPage"));
                                  ("parent_id", VScalar (SInt 2))]);
                  ("title", VScalar (SStr "Blog")); ("body", VScalar (SStr "Hello"));
                  ("related_links",
                   VList [VDict [("link", VScalar (SStr "http://a/"))];
                          VDict [("link", VScalar (SStr "http://b/"))]])])
              HttpResponseOK
            = json_response (VDict doc) HttpResponseOK).
Proof.
  split.
  - destruct (detail_view_outcomes Fixture.store DocumentsAPIEndpoint (Request [] 1) 7)
      as [Hnone _].
    apply Hnone. simpl. intros o Hin. intuition (subst; discriminate).
  - destruct (detail_view_outcomes Fixture.store PagesAPIEndpoint
                (Request [("title", "Home")] 1) 3) as [_ [Hok _]].
    destruct (Hok _ eq_refl) as [H404|Hfound]; [discriminate H404|exact Hfound].
Defined.

(** ** Field resolution *)

Lemma get_api_data_unfold i cls rels db_fields attrs fields :
  get_api_data (Obj i cls rels db_fields attrs) fields
    = emit_fields
        (resolve_field
           (if is_page_model cls then OrderedDict (relation_docs rels) else [])
           db_fields attrs)
        fields.
Proof. reflexivity. Qed.

Lemma emit_fields_app resolve fields1 fields2 :
  emit_fields resolve (fields1 ++ fields2)
    = emit_fields resolve fields1 ++ emit_fields resolve fields2.
Proof.
  induction fields1 as [|f fs IH]; [reflexivity|].
  cbn [app emit_fields]. rewrite IH. destruct (resolve f); reflexivity.
Qed.

(** X12. [get_api_data] treats each field on its own and in the order
    asked: the pairs for a list of fields followed by another are those of
    the first followed by those of the second, a field gives one pair at
    most, and the keys are the fields that resolve, in the order given. *)
Theorem get_api_data_fieldwise o fields1 fields2 :
  get_api_data o (fields1 ++ fields2)
    = get_api_data o fields1 ++ get_api_data o fields2
  /\ keys (get_api_data o fields1) = filter (resolves o) fields1
  /\ (forall f, get_api_data o [f] = []
                \/ exists v, get_api_data o [f] = [(f, v)]).
Proof.
  destruct (get_api_data_emit o) as [resolve [Heq _]].
  split; [|split].
  - rewrite !Heq. apply emit_fields_app.
  - apply get_api_data_key_list.
  - intros f. rewrite Heq. cbn [emit_fields].
    destruct (resolve f) as [v|]; [right; exists v|left]; reflexivity.
Qed.

Lemma last_binding_relation_docs rels f :
  last_binding (relation_docs rels) f
    = match find_relation rels f with
      | Some (Rel _ m children) =>
          Some (match api_fields m with
                | Some child_fields =>
                    Some (map (fun child =>
                                 VDict (OrderedDict (get_api_data child child_fields)))
                              children)
                | None => None
                end)
      | None => None
      end.
Proof.
  induction rels as [|[name m children] rels IH]; [reflexivity|].
  cbn [relation_docs last_binding find_relation]. rewrite IH.
  destruct (find_relation rels f) as [[n' m' children']|]; [reflexivity|].
  destruct (String.eqb name f); reflexivity.
Qed.

(** X13. How one field of an object [Obj i cls rels db_fields attrs] is
    resolved, first match first.  On a page, a child relation of that name
    whose model declares [api_fields] (the last relation, when several have
    the name) gives the list of the documents of its objects, each built
    from the fields that model declares, not from the fields asked for.
    Otherwise a model field of that name gives its value as it is; otherwise
    an attribute gives its value through [force_text]; otherwise the field
    is left out.  On an object that is not a page the relations count for
    nothing. *)
Theorem field_resolution_order i cls rels db_fields attrs f :
  get_api_data (Obj i cls rels db_fields attrs) [f]
    = match relation_value
              (if is_page_model cls then find_relation rels f else None) with
      | Some docs => [(f, docs)]
      | None =>
          match od_get db_fields f with
          | Some v => [(f, VScalar v)]
          | None =>
              match od_get attrs f with
              | Some v => [(f, VScalar (force_text v))]
              | None => []
              end
          end
      end.
Proof.
  rewrite get_api_data_unfold. cbn [emit_fields]. unfold resolve_field.
  destruct (is_page_model cls).
  - rewrite od_get_OrderedDict, last_binding_relation_docs.
    destruct (find_relation rels f) as [[n m children]|]; cbn [relation_value].
    + destruct (api_fields m); [reflexivity|].
      destruct (od_get db_fields f); [reflexivity|].
      destruct (od_get attrs f); reflexivity.
    + destruct (od_get db_fields f); [reflexivity|].
      destruct (od_get attrs f); reflexivity.
  - cbn [od_get relation_value].
    destruct (od_get db_fields f); [reflexivity|].
    destruct (od_get attrs f); reflexivity.
Qed.

(** ** The fields a listing is asked for *)

(** X14. A listing of pages or of images with a [fields] parameter
    serializes each object of its page, the slice that pagination cut from
    the listing's collection, with the names between the commas of the
    parameter.  The keys of a document are then [id], [meta] for a page,
    and the names asked for that the registry of the object's kind holds and
    that resolve, in the order of the request, each once. *)
Theorem listing_requested_fields st ep request fs response :
  ep <> DocumentsAPIEndpoint ->
  get_param (GET request) "fields" = Some fs ->
  listing_view st ep request = Ok response ->
  exists queryset page docs,
    listing_collection st ep request = Ok queryset
    /\ do_pagination st request queryset = Ok page
    /\ response
       = json_response
           (listing_document (count queryset) (collection_name ep) docs)
           HttpResponseOK
    /\ Forall2
         (fun o doc =>
            serialize_object st ep o (split_comma fs) false false = Ok doc
            /\ keys doc
               = dedup (("id" :: match ep with
                                 | PagesAPIEndpoint => ["meta"]
                                 | _ => []
                                 end)
                        ++ filter (resolves o)
                             (filter (fun f => mem f (get_api_fields ep (type_of o)))
                                     (split_comma fs))))
         (qs_objects page) docs.
Proof.
  intros Hep Hfields Hview. rewrite listing_view_stages in Hview.
  assert (Hlf : listing_fields ep request = split_comma fs).
  { unfold listing_fields. rewrite Hfields. destruct ep; congruence. }
  rewrite Hlf in Hview.
  destruct (listing_collection st ep request) as [queryset|e] eqn:Hc;
    simpl in Hview; [|discriminate].
  destruct (do_pagination st request queryset) as [page|e] eqn:Hp;
    simpl in Hview; [|discriminate].
  destruct (mapM _ (qs_objects page)) as [docs|e] eqn:Hdocs; simpl in Hview;
    [|discriminate].
  inversion Hview; subst response; clear Hview.
  exists queryset, page, docs.
  split; [reflexivity|]. split; [exact Hp|]. split; [reflexivity|].
  apply mapM_Forall2 in Hdocs.
  induction Hdocs as [|o doc objs docs Hdoc _ IH]; constructor; [|exact IH].
  split; [exact Hdoc|].
  destruct (serialize_object_metadata_listing st ep o) as [metadata Hm].
  rewrite (serialize_object_key_list _ _ _ _ _ _ _ _ Hm Hdoc).
  unfold selected_fields.
  destruct ep; simpl in Hm; inversion Hm; subst metadata; reflexivity.
Qed.

(** The images asked for height, then a name of no field, then width. *)
Lemma listing_requested_fields_witness :
  exists queryset page docs,
    listing_collection Fixture.store ImagesAPIEndpoint
      (Request [("fields", "height,url,width")] 1) = Ok queryset
    /\ do_pagination Fixture.store (Request [("fields", "height,url,width")] 1)
         queryset = Ok page
    /\ json_response
         (listing_document 3 "images"
            [[("id", VScalar (SInt 4)); ("height", VScalar (SInt 480));
              ("width", VScalar (SInt 640))];
             [("id", VScalar (SInt 5)); ("height", VScalar (SInt 600));
              ("width", VScalar (SInt 800))];
             [("id", VScalar (SInt 6)); ("height", VScalar (SInt 400));
              ("width", VScalar (SInt 640))]])
         HttpResponseOK
       = json_response
           (listing_document (count queryset) (collection_name ImagesAPIEndpoint)
              docs)
           HttpResponseOK
    /\ Forall2
         (fun o doc =>
            serialize_object Fixture.store ImagesAPIEndpoint o
              (split_comma "height,url,width") false false = Ok doc
            /\ keys doc
               = dedup (["id"]
                        ++ filter (resolves o)
                             (filter (fun f => mem f (get_api_fields ImagesAPIEndpoint
                                                        (type_of o)))
                                     (split_comma "height,url,width"))))
         (qs_objects page) docs.
Proof.
  apply (listing_requested_fields Fixture.store ImagesAPIEndpoint
           (Request [("fields", "height,url,width")] 1) "height,url,width").
  - discriminate.
  - reflexivity.
  - reflexivity.
Defined.

(** ** Splitting at commas *)

Lemma split_comma_nonempty s : split_comma s <> [].
Proof.
  destruct s as [|c s]; cbn [split_comma]; [discriminate|].
  destruct (Ascii.eqb c ","%char); [discriminate|].
  destruct (split_comma s); discriminate.
Qed.

Lemma join_comma_cons w ws :
  ws <> [] -> join_comma (w :: ws) = (w ++ String ","%char (join_comma ws))%string.
Proof. destruct ws; [congruence|reflexivity]. Qed.

(** X15. The names a [fields] parameter is split into are what lies
    between its commas: there is always one name at least, none has a comma,
    and joined by commas they give the parameter back; and a list of names
    without commas, joined by commas, is split into that list again. *)
Theorem split_comma_join :
  (forall s,
      split_comma s <> []
      /\ Forall (fun w => comma_free w = true) (split_comma s)
      /\ join_comma (split_comma s) = s)
  /\ (forall names,
         names <> [] ->
         Forall (fun w => comma_free w = true) names ->
         split_comma (join_comma names) = names).
Proof.
  split.
  - intros s. split; [apply split_comma_nonempty|].
    induction s as [|c s [IHfree IHjoin]]; [repeat constructor|].
    cbn [split_comma]. destruct (Ascii.eqb c ","%char) eqn:Hc.
    + apply Ascii.eqb_eq in Hc. subst c. split.
      * constructor; [reflexivity|assumption].
      * rewrite join_comma_cons by apply split_comma_nonempty.
        rewrite IHjoin. reflexivity.
    + pose proof (split_comma_nonempty s) as Hne.
      destruct (split_comma s) as [|w ws]; [congruence|].
      pose proof (Forall_inv IHfree) as Hw.
      pose proof (Forall_inv_tail IHfree) as Hws. cbn beta in Hw. split.
      * constructor; [|assumption]. cbn [comma_free]. rewrite Hc, Hw. reflexivity.
      * destruct ws as [|w' ws].
        -- cbn [join_comma] in *. rewrite IHjoin. reflexivity.
        -- rewrite join_comma_cons in * by discriminate.
           cbn [append]. rewrite IHjoin. reflexivity.
  - intros names Hne Hfree.
    assert (Hword : forall w rest,
               comma_free w = true ->
               split_comma (w ++ String ","%char rest)
                 = w :: split_comma rest).
    { induction w as [|c w IHw]; intros rest Hw; [reflexivity|].
      cbn [comma_free] in Hw. apply andb_true_iff in Hw as [Hc Hw].
      apply negb_true_iff in Hc. cbn [append split_comma].
      rewrite Hc, (IHw rest Hw). reflexivity. }
    assert (Hlast : forall w, comma_free w = true -> split_comma w = [w]).
    { induction w as [|c w IHw]; intros Hw; [reflexivity|].
      cbn [comma_free] in Hw. apply andb_true_iff in Hw as [Hc Hw].
      apply negb_true_iff in Hc. cbn [split_comma].
      rewrite Hc, (IHw Hw). reflexivity. }
    induction names as [|w ws IH]; [congruence|].
    pose proof (Forall_inv Hfree) as Hw.
    pose proof (Forall_inv_tail Hfree) as Hws. cbn beta in Hw.
    destruct ws as [|w' ws]; [apply Hlast; assumption|].
    rewrite join_comma_cons by discriminate.
    rewrite (Hword w _ Hw), IH; [reflexivity|discriminate|assumption].
Qed.

Lemma split_comma_join_witness :
  (split_comma "title,,body" <> []
   /\ Forall (fun w => comma_free w = true) (split_comma "title,,body")
   /\ join_comma (split_comma "title,,body") = "title,,body")
  /\ split_comma (join_comma ["title"; ""; "body"]) = ["title"; ""; "body"].
Proof.
  destruct split_comma_join as [Hsplit Hjoin]. split.
  - apply Hsplit.
  - apply Hjoin; [discriminate|]. repeat constructor.
Defined.

(** ** The ids of a listing *)

Lemma listing_doc_id st ep o fields doc :
  serialize_object st ep o fields false false = Ok doc ->
  ~ In "id" (get_api_fields ep (type_of o)) ->
  od_get doc "id" = Some (VScalar (SInt (obj_id o))).
Proof.
  intros Hs Hreg.
  destruct (serialize_object_metadata_listing st ep o) as [metadata Hm].
  rewrite (serialize_object_lookup _ _ _ _ _ _ _ _ "id" Hm Hs).
  destruct (mem "id" (selected_fields ep o fields false)) eqn:Hmem; [|reflexivity].
  exfalso. apply mem_In in Hmem. unfold selected_fields in Hmem.
  apply filter_In in Hmem as [_ Hmem]. apply mem_In in Hmem. contradiction.
Qed.

Lemma id_list_listing_document total_count ep docs status :
  id_list (collection_name ep)
          (Ok (json_response (listing_document total_count (collection_name ep) docs)
                             status))
    = flat_map (fun d => match od_get d "id" with
                         | Some (VScalar (SInt i)) => [i]
                         | _ => []
                         end) docs.
Proof.
  assert (Hget : od_get (OrderedDict
                           [("meta",
                             VDict (OrderedDict
                                      [("total_count", VScalar (SInt total_count))]));
                            (collection_name ep, VList (map VDict docs))])
                        (collection_name ep)
                 = Some (VList (map VDict docs))).
  { destruct ep; reflexivity. }
  unfold id_list, json_response, listing_document. rewrite Hget. clear Hget.
  induction docs as [|d docs IH]; [reflexivity|].
  cbn [map flat_map]. rewrite IH. reflexivity.
Qed.

(** X16. The ids that a client reads off a listing, as the tests do, are
    the ids of the objects of the page, in their order: those of the slice
    from [offset] up to [offset + limit] of the collection.  (No kind in the
    collection is taken to declare a field called [id].) *)
Theorem listing_ids st ep request queryset offset limit :
  listing_collection st ep request = Ok queryset ->
  param_is st request "offset" 0 offset ->
  param_is st request "limit" 20 limit ->
  (forall o, In o (qs_objects queryset) ->
             ~ In "id" (get_api_fields ep (type_of o))) ->
  id_list (collection_name ep) (api_view (listing_view st ep request))
    = map obj_id
          (firstn (Z.to_nat limit) (skipn (Z.to_nat offset) (qs_objects queryset))).
Proof.
  intros Hc Ho Hl Hreg.
  assert (Ho0 : 0 <= offset).
  { apply param_is_int_param in Ho as [_ H]. apply H. lia. }
  assert (Hl0 : 0 <= limit).
  { apply param_is_int_param in Hl as [_ H]. apply H. lia. }
  rewrite listing_view_stages, Hc, bind_Ok.
  rewrite (do_pagination_ok st request queryset offset limit Ho Hl), bind_Ok.
  rewrite slice_objects by assumption.
  set (page := firstn (Z.to_nat limit) (skipn (Z.to_nat offset) (qs_objects queryset))).
  assert (Hpage : forall o, In o page -> In o (qs_objects queryset)).
  { intros o Hin. unfold page in Hin.
    rewrite <- (firstn_skipn (Z.to_nat offset) (qs_objects queryset)).
    apply in_or_app. right.
    rewrite <- (firstn_skipn (Z.to_nat limit)
                  (skipn (Z.to_nat offset) (qs_objects queryset))).
    apply in_or_app. left. exact Hin. }
  destruct (listing_docs_total st ep (listing_fields ep request) page)
    as [docs Hdocs].
  rewrite Hdocs, bind_Ok. cbn [api_view].
  rewrite id_list_listing_document.
  apply mapM_Forall2 in Hdocs.
  induction Hdocs as [|o doc objs docs Hdoc _ IH]; [reflexivity|].
  cbn [flat_map map].
  rewrite (listing_doc_id _ _ _ _ _ Hdoc (Hreg o (Hpage o (or_introl eq_refl)))).
  cbn [app]. f_equal. apply IH. intros o' Hin. apply Hpage. right. assumption.
Qed.

(** The documents from the second on. *)
Lemma listing_ids_witness :
  id_list "documents"
          (api_view (listing_view Fixture.store DocumentsAPIEndpoint
                       (Request [("offset", "1"); ("limit", "5")] 1)))
    = map obj_id (firstn (Z.to_nat 5) (skipn (Z.to_nat 1) Fixture.documents)).
Proof.
  apply (listing_ids Fixture.store DocumentsAPIEndpoint
           (Request [("offset", "1"); ("limit", "5")] 1)
           (QS Fixture.DocumentModel Fixture.documents) 1 5).
  - reflexivity.
  - split; [reflexivity|lia].
  - split; [reflexivity|lia].
  - intros o Hin. simpl in Hin.
    destruct Hin as [<-|[<-|[<-|[]]]]; simpl; intuition discriminate.
Defined.

(** ** The documents of child objects *)

Lemma get_api_data_scalars o fields k v :
  is_page_model (type_of o) = false ->
  In (k, v) (get_api_data o fields) ->
  exists s, v = VScalar s.
Proof.
  destruct o as [i cls rels db_fields attrs]. cbn [type_of]. intros Hpage Hin.
  rewrite get_api_data_unfold, Hpage in Hin.
  apply emit_fields_pairs in Hin as [_ Hin].
  unfold resolve_field in Hin. cbn [od_get] in Hin.
  destruct (od_get db_fields k); [inversion Hin; eauto|].
  destruct (od_get attrs k); [inversion Hin; eauto|discriminate].
Qed.

(** X17. On a page, a field that names a child relation whose model
    declares [api_fields] is serialized to one document per child object, in
    their order.  Such a document has no [id] and no [meta] of its own: its
    keys are the fields the child's model declares that resolve on the
    child, each once; and when the child is not itself a page, all its
    values are plain values. *)
Theorem child_documents i cls rels db_fields attrs f n m children child_fields :
  is_page_model cls = true ->
  find_relation rels f = Some (Rel n m children) ->
  api_fields m = Some child_fields ->
  exists docs,
    get_api_data (Obj i cls rels db_fields attrs) [f] = [(f, VList (map VDict docs))]
    /\ Forall2
         (fun child doc =>
            doc = OrderedDict (get_api_data child child_fields)
            /\ keys doc = dedup (filter (resolves child) child_fields)
            /\ (is_page_model (type_of child) = false ->
                forall k v, In (k, v) doc -> exists s, v = VScalar s))
         children docs.
Proof.
  intros Hpage Hrel Hfields.
  exists (map (fun child => OrderedDict (get_api_data child child_fields)) children).
  split.
  - rewrite get_api_data_unfold, Hpage. cbn [emit_fields]. unfold resolve_field.
    rewrite od_get_OrderedDict, last_binding_relation_docs, Hrel, Hfields.
    rewrite map_map. reflexivity.
  - clear Hrel. induction children as [|child children IH]; constructor; [|exact IH].
    split; [reflexivity|]. split.
    + rewrite OrderedDict_key_list, get_api_data_key_list. reflexivity.
    + intros Hchild k v Hin. apply OrderedDict_pairs in Hin.
      exact (get_api_data_scalars child child_fields k v Hchild Hin).
Qed.

(** The blog page and its two related links. *)
Lemma child_documents_witness :
  let links := [Fixture.link 1 "http://a/"; Fixture.link 2 "http://b/"] in
  exists docs,
    get_api_data (Fixture.blog_page 3 "Blog" "Hello" links) ["related_links"]
      = [("related_links", VList (map VDict docs))]
    /\ Forall2
         (fun child doc =>
            doc = OrderedDict (get_api_data child ["link"])
            /\ keys doc = dedup (filter (resolves child) ["link"])
            /\ (is_page_model (type_of child) = false ->
                forall k v, In (k, v) doc -> exists s, v = VScalar s))
         links docs.
Proof.
  intros links.
  apply (child_documents 3 Fixture.BlogPage
           [Rel "related_links" Fixture.RelatedLink links]
           [("id", SInt 3); ("title", SStr "Blog"); ("body", SStr "Hello")] []
           "related_links" "related_links" Fixture.RelatedLink links ["link"]);
    reflexivity.
Defined.
